(** * NSmedia: the status dispatcher and the two adapters

    A shallow embedding of [www/browser/NSmedia.js] (the direct-backed
    adapter, over an HTML [Audio] element) and of the bridge-backed module
    (the same interface over [cordova/exec]), and the properties of the
    status dispatcher [NSmedia.onStatus] that both files carry.

    Layout:
    - [JS]      : the fragment of ECMAScript values the code manipulates
                  (numbers as IEEE-754 binary64, [Number(...)], [===], [==]);
    - [Heap]    : media objects, the registry [mediaObjects], the observable
                  events, and the state-and-exception monad the methods run in;
    - [Browser] : the direct-backed module, [www/browser/NSmedia.js];
    - [Bridge]  : the bridge-backed module;
    - [Sample]  : concrete collaborators and a page to run the code on;
    - the theorems. *)

From Stdlib Require Import ZArith NArith String Ascii List Bool Lia.
From Stdlib Require Import Floats.SpecFloat.
From stdpp Require Import gmap strings.

Local Open Scope Z_scope.
Local Open Scope string_scope.

(* ===================================================================== *)
(** ** ECMAScript values                                                  *)
(* ===================================================================== *)

Module JS.

(** *** Numbers

    A JS Number is an IEEE-754 binary64 value: 53 bits of precision,
    exponents below 1024.  [spec_float] is the Standard Library's
    specification of such values; its operations round to nearest, ties to
    even, as ECMAScript requires. *)

Definition number : Type := spec_float.

Definition prec : Z := 53.
Definition emax : Z := 1024.

Definition NaN : number := S754_nan.

(** The Number denoted by an integer literal. *)
Definition of_Z (z : Z) : number := binary_normalize prec emax z 0 false.

(** [x / y] on Numbers. *)
Definition div (x y : number) : number := SFdiv prec emax x y.

(** The Number 12.5: twenty-five halves. *)
Definition twelve_and_a_half : number := div (of_Z 25) (of_Z 2).

(** Number::equal: [NaN] differs from everything, [+0] equals [-0]. *)
Definition number_equal (x y : number) : bool := SFeqb x y.

(** The Number nearest to [m * 10^e] (for [m > 0]), with the sign [neg].
    A non-negative exponent gives an integer, rounded directly; a negative
    one gives the quotient [m / 10^(-e)], rounded from the quotient, the
    remainder and the divisor the way [SFdiv] rounds a division. *)
Definition round_decimal (neg : bool) (m : positive) (e : Z) : number :=
  match e with
  | Zneg k =>
      let '(q, eq, loc) :=
        SFdiv_core_binary prec emax (Zpos m) 0 (Zpos (Pos.pow 10 k)) 0 in
      binary_round_aux prec emax neg q eq loc
  | _ => binary_round prec emax neg (m * Z.to_pos (10 ^ e))%positive 0
  end.

(** *** StringToNumber (ECMA-262, 7.1.4.1.1)

    Strings are sequences of Latin-1 characters here; the white space of
    the grammar (StrWhiteSpaceChar) is then TAB, LF, VT, FF, CR, SP and the
    no-break space U+00A0. *)

Definition is_white_space (c : ascii) : bool :=
  let n := N_of_ascii c in
  (((9 <=? n) && (n <=? 13)) || (n =? 32) || (n =? 160))%N.

Fixpoint skip_white_space (s : list ascii) : list ascii :=
  match s with
  | c :: s' => if is_white_space c then skip_white_space s' else s
  | [] => []
  end.

Definition trim (s : list ascii) : list ascii :=
  rev (skip_white_space (rev (skip_white_space s))).

(** The value of [c] as a digit in [base] (2, 8, 10 or 16). *)
Definition digit_value (base : N) (c : ascii) : option N :=
  let n := N_of_ascii c in
  let v :=
    if ((48 <=? n) && (n <=? 57))%N then Some (n - 48)%N
    else if ((97 <=? n) && (n <=? 102))%N then Some (n - 87)%N
    else if ((65 <=? n) && (n <=? 70))%N then Some (n - 55)%N
    else None in
  match v with
  | Some d => if (d <? base)%N then Some d else None
  | None => None
  end.

(** Reads the longest prefix of digits: its value (after [acc]), how many
    digits were read, and the rest of the input. *)
Fixpoint read_digits (base : N) (s : list ascii) (acc : N) (count : nat)
  : N * nat * list ascii :=
  match s with
  | c :: s' =>
      match digit_value base c with
      | Some d => read_digits base s' (acc * base + d)%N (S count)
      | None => (acc, count, s)
      end
  | [] => (acc, count, [])
  end.

Definition read_sign (s : list ascii) : bool * list ascii :=
  match s with
  | "-"%char :: s' => (true, s')
  | "+"%char :: s' => (false, s')
  | _ => (false, s)
  end.

(** ExponentPart, when present; [None] when it is ill-formed. *)
Definition read_exponent (s : list ascii) : option Z :=
  match s with
  | [] => Some 0
  | c :: s' =>
      if Ascii.eqb c "e" || Ascii.eqb c "E" then
        let '(neg, s'') := read_sign s' in
        match read_digits 10 s'' 0%N 0%nat with
        | (_, O, _) => None
        | (x, _, []) => Some (if neg then - Z.of_N x else Z.of_N x)
        | _ => None
        end
      else None
  end.

(** StrUnsignedDecimalLiteral other than [Infinity]: digits, an optional
    fraction, an optional exponent; at least one digit around the dot. *)
Definition read_decimal (neg : bool) (s : list ascii) : number :=
  let '(ip, n_ip, r1) := read_digits 10 s 0%N 0%nat in
  let '(fp, n_fp, r2) :=
    match r1 with
    | "."%char :: r => read_digits 10 r ip 0%nat
    | _ => (ip, 0%nat, r1)
    end in
  match (n_ip + n_fp)%nat, read_exponent r2 with
  | O, _ | _, None => NaN
  | _, Some e =>
      match fp with
      | N0 => S754_zero neg
      | Npos m => round_decimal neg m (e - Z.of_nat n_fp)
      end
  end.

(** NonDecimalIntegerLiteral: the digits after [0x], [0o] or [0b]. *)
Definition read_radix (base : N) (s : list ascii) : number :=
  match read_digits base s 0%N 0%nat with
  | (_, O, _) => NaN
  | (N0, _, []) => S754_zero false
  | (Npos m, _, []) => binary_round prec emax false m 0
  | _ => NaN
  end.

Definition string_to_number (str : string) : number :=
  match trim (list_ascii_of_string str) with
  | [] => S754_zero false
  | "0"%char :: c :: s =>
      if Ascii.eqb c "x" || Ascii.eqb c "X" then read_radix 16 s
      else if Ascii.eqb c "o" || Ascii.eqb c "O" then read_radix 8 s
      else if Ascii.eqb c "b" || Ascii.eqb c "B" then read_radix 2 s
      else read_decimal false ("0"%char :: c :: s)
  | s =>
      let '(neg, s') := read_sign s in
      if String.eqb (string_of_list_ascii s') "Infinity"
      then S754_infinity neg
      else read_decimal neg s'
  end.

(** *** Values

    The values that reach the code: primitives and plain objects (property
    bags, as an object literal, a JSON message or a DOM [MediaError] gives).
    Functions are kept apart, as [callback] handles (see [Heap]); objects
    that redefine [valueOf] or [toString], Symbols and BigInts are outside
    the model. *)

#[warnings="-register-all"] Inductive value : Type :=
| VUndefined
| VNull
| VBool (b : bool)
| VNum (n : number)
| VStr (s : string)
| VObj (props : list (string * value)).

(** How an evaluation ends: with a result or with a thrown value. *)
Inductive completion (A : Type) : Type :=
| Normal (a : A)
| Throw (e : value).
Arguments Normal {A} a.
Arguments Throw {A} e.

(** The [TypeError] the engine raises; [msg] names the offending
    expression (the wording differs between engines). *)
Definition TypeError (msg : string) : value :=
  VObj [("name", VStr "TypeError"); ("message", VStr msg)].

(** ToPrimitive: an ordinary object falls back on
    [Object.prototype.toString]. *)
Definition to_primitive (v : value) : value :=
  match v with
  | VObj _ => VStr "[object Object]"
  | _ => v
  end.

(** ToNumber, that is [Number(v)]. *)
Definition to_number (v : value) : number :=
  match to_primitive v with
  | VUndefined => NaN
  | VNull => S754_zero false
  | VBool b => if b then of_Z 1 else of_Z 0
  | VNum n => n
  | VStr s => string_to_number s
  | VObj _ => NaN
  end.

(** ToBoolean: what [if (v)], [v && ...] and [v || ...] test. *)
Definition to_boolean (v : value) : bool :=
  match v with
  | VUndefined | VNull => false
  | VBool b => b
  | VNum (S754_zero _) | VNum S754_nan => false
  | VNum _ => true
  | VStr s => negb (String.eqb s "")
  | VObj _ => true
  end.

(** [v === n] for a Number [n] (IsStrictlyEqual): no conversion. *)
Definition strict_equals (v : value) (n : number) : bool :=
  match v with
  | VNum m => number_equal m n
  | _ => false
  end.

(** [v == n] for a Number [n] (IsLooselyEqual): strings and booleans are
    converted to numbers, objects to primitives first; [undefined] and
    [null] equal no number. *)
Definition loose_equals (v : value) (n : number) : bool :=
  match to_primitive v with
  | VUndefined | VNull => false
  | VObj _ => false
  | p => number_equal (to_number p) n
  end.

(** [v.k], for a name [k] that the built-in prototypes do not define (as
    [code]): a property of an object, nothing on a primitive, a [TypeError]
    on [undefined] and [null]. *)
Fixpoint assoc (k : string) (props : list (string * value)) : value :=
  match props with
  | (k', v) :: rest => if String.eqb k k' then v else assoc k rest
  | [] => VUndefined
  end.

Definition get (v : value) (k : string) : completion value :=
  match v with
  | VUndefined | VNull => Throw (TypeError ("Cannot read property " ++ k))
  | VObj props => Normal (assoc k props)
  | _ => Normal VUndefined
  end.

End JS.

Import JS.

(* ===================================================================== *)
(** ** Media objects, the registry and the effects of the code            *)
(* ===================================================================== *)

Module Heap.

(** A function handed in by the application (a success, error or status
    callback).  The code only ever calls it; what it does is the
    application's business, so a call is recorded as an event and taken to
    return. *)
Inductive callback : Type := Callback (name : string).

(** What the code does to the world outside, in order. *)
Inductive event : Type :=
| Call (f : callback) (args : list value)
    (** [f(args)] *)
| ConsoleError (text : string) (operand : value)
    (** [console.error(text + operand)] *)
| Exec (success fail : option callback) (service action : string)
       (args : list value)
    (** [exec(success, fail, service, action, args)] *)
| Assign (member property : string) (v : value).
    (** [mediaObjects[member][property] = v], where [member] names what the
        registry inherits from [Object.prototype] *)

(** The members of [Object.prototype], which a registry made as [{}]
    inherits: functions all, but for [__proto__], which gives
    [Object.prototype] itself.  Each is truthy, and none has a property
    [statusCallback], [successCallback] or [errorCallback]. *)
Definition object_prototype_members : list string :=
  ["constructor"; "hasOwnProperty"; "isPrototypeOf"; "propertyIsEnumerable";
   "toLocaleString"; "toString"; "valueOf"; "__proto__";
   "__defineGetter__"; "__defineSetter__"; "__lookupGetter__";
   "__lookupSetter__"].

(** [i] names a member of [Object.prototype]. *)
Definition inherits (i : string) : bool :=
  existsb (String.eqb i) object_prototype_members.


(** The observer functions that [createNode] attaches to an element.  Each
    closes over the media object, of which it reads [id]. *)
Inductive handler : Type :=
| OnLoadStart (media_id : string)
| OnPlaying (media_id : string)
| OnDurationChange (media_id : string)
| OnError (media_id : string)
| OnEnded (media_id : string).

Section Objects.

(** The state of the backing primitive (an HTML [Audio] element); the
    bridge-backed adapter has none. *)
Variable audio : Type.

(** The element with what the code assigns to it. *)
Record Node : Type := {
  element : audio;
  onloadstart : option handler;
  onplaying : option handler;
  ondurationchange : option handler;
  onerror : option handler;
  onended : option handler
}.

(** A media object, with the properties the constructor gives it.  An
    optional callback that was not passed is [None]; [node] is [None] when
    the object has no such property. *)
Record NSmedia : Type := {
  id : string;
  src : value;
  successCallback : option callback;
  errorCallback : option callback;
  statusCallback : option callback;
  _duration : value;
  _position : value;
  node : option Node
}.

Definition set_duration (v : value) (m : NSmedia) : NSmedia :=
  {| id := id m; src := src m; successCallback := successCallback m;
     errorCallback := errorCallback m; statusCallback := statusCallback m;
     _duration := v; _position := _position m; node := node m |}.

Definition set_position (v : value) (m : NSmedia) : NSmedia :=
  {| id := id m; src := src m; successCallback := successCallback m;
     errorCallback := errorCallback m; statusCallback := statusCallback m;
     _duration := _duration m; _position := v; node := node m |}.

Definition set_node (n : option Node) (m : NSmedia) : NSmedia :=
  {| id := id m; src := src m; successCallback := successCallback m;
     errorCallback := errorCallback m; statusCallback := statusCallback m;
     _duration := _duration m; _position := _position m; node := n |}.

Definition set_element (a : audio) (n : Node) : Node :=
  {| element := a; onloadstart := onloadstart n; onplaying := onplaying n;
     ondurationchange := ondurationchange n; onerror := onerror n;
     onended := onended n |}.

(** The world of one module: the own properties of its registry
    [var mediaObjects = {}], keyed by id (the constructor adds them under
    the strings of [utils.createUUID]); whether the host has
    [console.error]; and the events so far.  [Object.prototype] is as the
    engine makes it: what is assigned to an inherited object is an event,
    and is not followed further. *)
Record State : Type := {
  mediaObjects : gmap string NSmedia;
  console_error : bool;
  log : list event
}.

Definition with_objects (f : gmap string NSmedia -> gmap string NSmedia)
    (st : State) : State :=
  {| mediaObjects := f (mediaObjects st); console_error := console_error st;
     log := log st |}.

Definition with_log (f : list event -> list event) (st : State) : State :=
  {| mediaObjects := mediaObjects st; console_error := console_error st;
     log := f (log st) |}.

(** *** The monad of the methods

    A computation runs from a state to a completion and a state; [None]
    stands for a method called on a receiver that is not an object of the
    store, which no run of the program does. *)
Definition M (R : Type) : Type := State -> option (completion R * State).

Definition ret {R} (r : R) : M R := fun st => Some (Normal r, st).

Definition bind {R S} (m : M R) (k : R -> M S) : M S := fun st =>
  match m st with
  | Some (Normal r, st') => k r st'
  | Some (Throw e, st') => Some (Throw e, st')
  | None => None
  end.

Definition throw {R} (e : value) : M R := fun st => Some (Throw e, st).

(** [try { body } catch (err) { handle err }] *)
Definition try_catch {R} (body : M R) (handle : value -> M R) : M R :=
  fun st =>
    match body st with
    | Some (Throw e, st') => handle e st'
    | r => r
    end.

Definition lift {R} (c : completion R) : M R := fun st => Some (c, st).

Definition emit (ev : event) : M unit := fun st =>
  Some (Normal tt, with_log (fun l => (l ++ [ev])%list) st).

(** The receiver [this], found by its id. *)
Definition self (i : string) : M NSmedia := fun st =>
  match mediaObjects st !! i with
  | Some media => Some (Normal media, st)
  | None => None
  end.

(** [mediaObjects[i] = media], for an id [i] of [utils.createUUID]:
    hexadecimal digits and dashes, so that the assignment makes an own
    property of the registry. *)
Definition register (i : string) (media : NSmedia) : M unit := fun st =>
  Some (Normal tt, with_objects (<[i := media]>) st).

(** An assignment to a property of the object [i]. *)
Definition update (i : string) (f : NSmedia -> NSmedia) : M unit := fun st =>
  Some (Normal tt, with_objects (alter f i) st).

(** What [mediaObjects[i]] can be, when it is not [undefined]: a media
    object, own property of the registry, or a member that the registry
    inherits from [Object.prototype]. *)
Inductive holder : Type :=
| Registered (media : NSmedia)
| Inherited (member : string).

(** The value of [mediaObjects[i]]: the own property first, then the
    prototype; [None] is [undefined]. *)
Definition found (i : string) (st : State) : option holder :=
  match mediaObjects st !! i with
  | Some media => Some (Registered media)
  | None => if inherits i then Some (Inherited i) else None
  end.

(** [mediaObjects[id]] *)
Definition resolve (i : string) : M (option holder) := fun st =>
  Some (Normal (found i st), st).

(** [media.statusCallback] and the like: a property of a media object,
    nothing on an inherited member. *)
Definition callback_of (field : NSmedia -> option callback) (media : holder)
  : option callback :=
  match media with
  | Registered m => field m
  | Inherited _ => None
  end.

(** [media._duration = v] and [media._position = v], for the [media] found
    under [i]: the assignment [set] to the media object, or the same
    assignment to the inherited member. *)
Definition assign (i : string) (media : holder) (property : string)
    (set : value -> NSmedia -> NSmedia) (v : value) : M unit :=
  match media with
  | Registered _ => update i (set v)
  | Inherited member => emit (Assign member property v)
  end.

(** [f(args)] for an [f] that must be a function. *)
Definition call (f : option callback) (args : list value) : M unit :=
  match f with
  | Some c => emit (Call c args)
  | None => throw (TypeError "not a function")
  end.

(** [f && f(args)] *)
Definition call_if_set (f : option callback) (args : list value) : M unit :=
  match f with
  | Some c => emit (Call c args)
  | None => ret tt
  end.

(** [console.error && console.error(text + operand)] *)
Definition report (text : string) (operand : value) : M unit := fun st =>
  if console_error st then emit (ConsoleError text operand) st
  else ret tt st.

End Objects.

Arguments element {audio} _.
Arguments onloadstart {audio} _.
Arguments onplaying {audio} _.
Arguments ondurationchange {audio} _.
Arguments onerror {audio} _.
Arguments onended {audio} _.
Arguments id {audio} _.
Arguments src {audio} _.
Arguments successCallback {audio} _.
Arguments errorCallback {audio} _.
Arguments statusCallback {audio} _.
Arguments _duration {audio} _.
Arguments _position {audio} _.
Arguments node {audio} _.
Arguments set_duration {audio} v m.
Arguments set_position {audio} v m.
Arguments set_node {audio} n m.
Arguments set_element {audio} a n.
Arguments mediaObjects {audio} _.
Arguments console_error {audio} _.
Arguments log {audio} _.
Arguments with_objects {audio} f st.
Arguments with_log {audio} f st.
Arguments ret {audio R} r _.
Arguments bind {audio R S} m k _.
Arguments throw {audio R} e _.
Arguments try_catch {audio R} body handle _.
Arguments lift {audio R} c _.
Arguments emit {audio} ev _.
Arguments Registered {audio} media.
Arguments Inherited {audio} member.
Arguments found {audio} i st.
Arguments resolve {audio} i _.
Arguments callback_of {audio} field media.
Arguments assign {audio} i media property set v _.
Arguments self {audio} i _.
Arguments register {audio} i media _.
Arguments update {audio} i f _.
Arguments call {audio} f args.
Arguments call_if_set {audio} f args.
Arguments report {audio} text operand _.

Declare Scope js_scope.
Delimit Scope js_scope with js.
Notation "x <- m ;; k" := (bind m (fun x => k))
  (at level 100, m at next level, right associativity) : js_scope.
Notation "m ;; k" := (bind m (fun _ => k))
  (at level 100, right associativity) : js_scope.

(** *** Describing a run *)

(** The state [st] after the events [evs], all else as it was. *)
Definition logged {audio} (evs : list event) (st : State audio)
  : State audio :=
  with_log (fun l => (l ++ evs)%list) st.

(** The state [st] with [media] as the object [i], all else as it was. *)
Definition stored {audio} (i : string) (media : NSmedia audio)
    (st : State audio) : State audio :=
  with_objects (<[i := media]>) st.

(** The one call of an optional callback that is set; nothing otherwise. *)
Definition invocation (f : option callback) (args : list value)
  : list event :=
  match f with
  | Some c => [Call c args]
  | None => []
  end.

(** The one diagnostic, on a host that has [console.error]. *)
Definition diagnostic {audio} (st : State audio) (text : string)
    (operand : value) : list event :=
  if console_error st then [ConsoleError text operand] else [].

(** [i] is the id of an object of the registry, stored under it as the
    constructors store it. *)
Definition registered {audio} (st : State audio) (i : string) : Prop :=
  exists media, mediaObjects st !! i = Some media /\ id media = i.

(** *** Constants of both modules *)

(** NSmedia messages *)
Definition MEDIA_STATE : number := of_Z 1.
Definition MEDIA_DURATION : number := of_Z 2.
Definition MEDIA_POSITION : number := of_Z 3.
Definition MEDIA_ERROR : number := of_Z 9.

(** NSmedia states *)
Definition MEDIA_NONE : number := of_Z 0.
Definition MEDIA_STARTING : number := of_Z 1.
Definition MEDIA_RUNNING : number := of_Z 2.
Definition MEDIA_PAUSED : number := of_Z 3.
Definition MEDIA_STOPPED : number := of_Z 4.

(** What a dispatcher does when [mediaObjects[id]] is an inherited member:
    it finds no callback on it, assigns the duration and the position to
    it, and reports any other type of message. *)
Definition on_inherited {audio} (st : State audio) (member : string)
    (msgType value : JS.value) : list event :=
  if strict_equals msgType MEDIA_STATE then []
  else if strict_equals msgType MEDIA_DURATION then
    [Assign member "_duration" value]
  else if strict_equals msgType MEDIA_ERROR then []
  else if strict_equals msgType MEDIA_POSITION then
    [Assign member "_position" (VNum (to_number value))]
  else diagnostic st "Unhandled NSmedia.onStatus :: " msgType.

End Heap.

Import Heap.

(* ===================================================================== *)
(** ** The collaborators of the code                                      *)
(* ===================================================================== *)

(** The browser's [Audio] element, as far as the code uses it: each
    operation may return or throw, and may change the element. *)
Class AudioPrimitive (audio : Type) : Type := {
  new_Audio : completion audio;            (** [new Audio()] *)
  assign_src : value -> audio -> completion unit * audio;
                                           (** [node.src = v] *)
  node_play : audio -> completion unit * audio;
                                           (** [node.play()] *)
  node_pause : audio -> completion unit * audio;
                                           (** [node.pause()] *)
  read_currentTime : audio -> completion number * audio;
                                           (** [node.currentTime] *)
  assign_currentTime : number -> audio -> completion unit * audio;
                                           (** [node.currentTime = t] *)
  assign_volume : value -> audio -> completion unit * audio
                                           (** [node.volume = v] *)
}.

(** The two constants the code reads from the global [NSmediaError], which
    another file of the plugin defines; their values are parameters here. *)
Class NSmediaError : Type := {
  MEDIA_ERR_ABORTED : number;
  MEDIA_ERR_SRC_NOT_SUPPORTED : number
}.

(** [argscheck.checkArgs] of cordova, for the first letter of the
    signature ([S]: a string, or nothing; [s]: a string).  The three [F]
    are in the types: a callback is a function or absent. *)
Definition accepts (required : bool) (src : value) : bool :=
  match src with
  | VStr _ => true
  | VUndefined | VNull => negb required
  | _ => false
  end.

(** [utils.typeName(arg)] of cordova. *)
Definition typeName (v : value) : string :=
  match v with
  | VUndefined => "Undefined"
  | VNull => "Null"
  | VBool _ => "Boolean"
  | VNum _ => "Number"
  | VStr _ => "String"
  | VObj _ => "Object"
  end.

(** The message for a first argument of the wrong type, up to the name of
    the type found: [Wrong type for parameter "src" of NSmedia: Expected
    String, but got ]. *)
Definition wrong_type : string :=
  "Wrong type for parameter "
  ++ String (ascii_of_nat 34) "src" ++ String (ascii_of_nat 34) " of NSmedia: "
  ++ "Expected String, but got ".

(** [console.error(text + operand)], not guarded: a [TypeError] on a host
    without [console.error]. *)
Definition console_error_call {audio} (text : string) (operand : value)
  : M audio unit := fun st =>
  if console_error st then emit (ConsoleError text operand) st
  else throw (TypeError "console.error is not a function") st.

(** On a mismatch [checkArgs] logs its message and throws it as a
    [TypeError] (checks are enabled, and this is no run under jasmine). *)
Definition checkArgs {audio} (required : bool) (src : value) : M audio unit :=
  if accepts required src then ret tt
  else
    bind (console_error_call wrong_type (VStr (typeName src ++ ".")))
         (fun _ => throw (TypeError (wrong_type ++ typeName src ++ "."))).

(* ===================================================================== *)
(** ** The direct-backed module, www/browser/NSmedia.js                   *)
(* ===================================================================== *)

Module Browser.
Section Browser.

Context {audio : Type} {prim : AudioPrimitive audio} {codes : NSmediaError}.

Local Open Scope js_scope.

(** [NSmedia.onStatus = function(id, msgType, value)] *)
Definition onStatus (id : string) (msgType value : JS.value) : M audio unit :=
  media <- resolve id ;;
  match media with
  | Some media =>
      if strict_equals msgType MEDIA_STATE then
        call_if_set (callback_of statusCallback media) [value] ;;
        if strict_equals value MEDIA_STOPPED
        then call_if_set (callback_of successCallback media) []
        else ret tt
      else if strict_equals msgType MEDIA_DURATION then
        assign id media "_duration" set_duration value
      else if strict_equals msgType MEDIA_ERROR then
        call_if_set (callback_of errorCallback media) [value]
      else if strict_equals msgType MEDIA_POSITION then
        assign id media "_position" set_position (VNum (to_number value))
      else
        report "Unhandled NSmedia.onStatus :: " msgType
  | None =>
      report "Received NSmedia.onStatus callback for unknown media :: "
             (VStr id)
  end.

(** [{ code: NSmediaError.MEDIA_ERR_ABORTED }] *)
Definition aborted : value := VObj [("code", VNum MEDIA_ERR_ABORTED)].

(** [function createNode (media)] *)
Definition createNode (media : NSmedia audio) : M audio (Node audio) :=
  a <- lift new_Audio ;;
  let node :=
    {| element := a;
       onloadstart := Some (OnLoadStart (id media));
       onplaying := Some (OnPlaying (id media));
       ondurationchange := Some (OnDurationChange (id media));
       onerror := Some (OnError (id media));
       onended := Some (OnEnded (id media)) |} in
  if to_boolean (src media) then
    let '(c, a') := assign_src (src media) a in
    lift c ;;
    ret (set_element a' node)
  else ret node.

(** What the browser hands to an observer: of [e.target], the code reads
    [duration] and [error]. *)
Record Event : Type := {
  target_duration : value;
  target_error : value
}.

(** The bodies of the five observers of [createNode]. *)
Definition fire (h : handler) (e : Event) : M audio unit :=
  match h with
  | OnLoadStart i => onStatus i (VNum MEDIA_STATE) (VNum MEDIA_STARTING)
  | OnPlaying i => onStatus i (VNum MEDIA_STATE) (VNum MEDIA_RUNNING)
  | OnDurationChange i =>
      onStatus i (VNum MEDIA_DURATION)
        (if to_boolean (target_duration e) then target_duration e
         else VNum (of_Z (-1)))
  | OnError i =>
      code <- lift (get (target_error e) "code") ;;
      let err :=
        if strict_equals code MEDIA_ERR_SRC_NOT_SUPPORTED then aborted
        else target_error e in
      onStatus i (VNum MEDIA_ERROR) err
  | OnEnded i => onStatus i (VNum MEDIA_STATE) (VNum MEDIA_STOPPED)
  end.

(** [this.node.f(...)], [this.node.p] and [this.node.p = v]: the operation
    [op] on the element of [this], a [TypeError] when [this.node] is
    [undefined]. *)
Definition on_node {R} (this : string)
    (op : audio -> completion R * audio) : M audio R :=
  media <- self this ;;
  match node media with
  | Some n =>
      let '(c, a') := op (element n) in
      update this (set_node (Some (set_element a' n))) ;;
      lift c
  | None => throw (TypeError "this.node is undefined")
  end.

(** [var NSmedia = function(src, successCallback, errorCallback,
    statusCallback)], called with [new]; [uuid] is what
    [utils.createUUID()] returns.  The result is the id of the object. *)
Definition new_NSmedia (uuid : string) (src : value)
    (successCallback errorCallback statusCallback : option callback)
  : M audio string :=
  checkArgs false src ;;
  register uuid {| id := uuid; src := src;
                   successCallback := successCallback;
                   errorCallback := errorCallback;
                   statusCallback := statusCallback;
                   _duration := VNum (of_Z (-1));
                   _position := VNum (of_Z (-1));
                   node := None |} ;;
  onStatus uuid (VNum MEDIA_STATE) (VNum MEDIA_STARTING) ;;
  try_catch
    (this <- self uuid ;;
     n <- createNode this ;;
     update uuid (set_node (Some n)))
    (fun err => onStatus uuid (VNum MEDIA_ERROR) aborted) ;;
  ret uuid.

(** [NSmedia.prototype.play] *)
Definition play (this : string) : M audio unit :=
  media <- self this ;;
  match node media with
  | None =>
      try_catch
        (n <- createNode media ;;
         update this (set_node (Some n)))
        (fun err => onStatus (id media) (VNum MEDIA_ERROR) aborted)
  | Some _ => ret tt
  end ;;
  on_node this node_play.

(** [NSmedia.prototype.seekTo] *)
Definition seekTo (this : string) (milliseconds : value) : M audio unit :=
  media <- self this ;;
  try_catch
    (on_node this
       (assign_currentTime (div (to_number milliseconds) (of_Z 1000))))
    (fun err => onStatus (id media) (VNum MEDIA_ERROR) err).

(** [NSmedia.prototype.pause] *)
Definition pause (this : string) : M audio unit :=
  media <- self this ;;
  try_catch
    (on_node this node_pause ;;
     onStatus (id media) (VNum MEDIA_STATE) (VNum MEDIA_PAUSED))
    (fun err => onStatus (id media) (VNum MEDIA_ERROR) err).

(** [NSmedia.prototype.stop] *)
Definition stop (this : string) : M audio unit :=
  media <- self this ;;
  try_catch
    (pause this ;;
     seekTo this (VNum (of_Z 0)) ;;
     onStatus (id media) (VNum MEDIA_STATE) (VNum MEDIA_STOPPED))
    (fun err => onStatus (id media) (VNum MEDIA_ERROR) err).

(** [NSmedia.prototype.getDuration] *)
Definition getDuration (this : string) : M audio value :=
  media <- self this ;;
  ret (_duration media).

(** [NSmedia.prototype.getCurrentPosition] *)
Definition getCurrentPosition (this : string)
    (success fail : option callback) : M audio unit :=
  media <- self this ;;
  try_catch
    (p <- on_node this read_currentTime ;;
     onStatus (id media) (VNum MEDIA_POSITION) (VNum p) ;;
     call success [VNum p])
    (fun err => call fail [err]).

(** [NSmedia.prototype.startRecord] *)
Definition startRecord (this : string) : M audio unit :=
  media <- self this ;;
  onStatus (id media) (VNum MEDIA_ERROR) (VStr "Not supported").

(** [NSmedia.prototype.stopRecord] *)
Definition stopRecord (this : string) : M audio unit :=
  media <- self this ;;
  onStatus (id media) (VNum MEDIA_ERROR) (VStr "Not supported").

(** [NSmedia.prototype.release] *)
Definition release (this : string) : M audio unit :=
  media <- self this ;;
  try_catch
    (update this (set_node None))
    (fun err => onStatus (id media) (VNum MEDIA_ERROR) err).

(** [NSmedia.prototype.setVolume] *)
Definition setVolume (this : string) (volume : value) : M audio unit :=
  on_node this (assign_volume volume).

(** What a run [r] of a method is when the fault [e], raised by the
    primitive with the world in state [st], has been turned into an ERROR
    status: the run is the dispatcher's, on that fault, and it returns. *)
Definition reported_as_error (i : string) (e : value) (st : State audio)
    (r : option (completion unit * State audio)) : Prop :=
  r = onStatus i (VNum MEDIA_ERROR) e st
  /\ exists st', r = Some (Normal tt, st').

End Browser.
End Browser.

(* ===================================================================== *)
(** ** The bridge-backed module                                           *)
(* ===================================================================== *)

Module Bridge.
Section Bridge.

(** The objects of this module have no [node]; [audio] is only there so
    that both modules speak of the same states. *)
Context {audio : Type}.

Local Open Scope js_scope.

(** [exec(success, fail, service, action, args)] of [cordova/exec]: the
    command leaves for the native side. *)
Definition exec (success fail : option callback) (service action : string)
    (args : list value) : M audio unit :=
  emit (Exec success fail service action args).

(** [var NSmedia = function(src, successCallback, errorCallback,
    statusCallback)], called with [new]; [uuid] is what
    [utils.createUUID()] returns.  The result is the id of the object. *)
Definition new_NSmedia (uuid : string) (src : value)
    (successCallback errorCallback statusCallback : option callback)
  : M audio string :=
  checkArgs true src ;;
  register uuid {| id := uuid; src := src;
                   successCallback := successCallback;
                   errorCallback := errorCallback;
                   statusCallback := statusCallback;
                   _duration := VNum (of_Z (-1));
                   _position := VNum (of_Z (-1));
                   node := None |} ;;
  exec None errorCallback "NSmedia" "create" [VStr uuid; src] ;;
  ret uuid.

(** [NSmedia.prototype.getDuration] *)
Definition getDuration (this : string) : M audio value :=
  media <- self this ;;
  ret (_duration media).

(** [NSmedia.onStatus = function(id, msgType, value)] *)
Definition onStatus (id : string) (msgType value : JS.value) : M audio unit :=
  media <- resolve id ;;
  match media with
  | Some media =>
      if strict_equals msgType MEDIA_STATE then
        call_if_set (callback_of statusCallback media) [value] ;;
        if loose_equals value MEDIA_STOPPED
        then call_if_set (callback_of successCallback media) []
        else ret tt
      else if strict_equals msgType MEDIA_DURATION then
        assign id media "_duration" set_duration value
      else if strict_equals msgType MEDIA_ERROR then
        call_if_set (callback_of errorCallback media) [value]
      else if strict_equals msgType MEDIA_POSITION then
        assign id media "_position" set_position (VNum (to_number value))
      else
        report "Unhandled NSmedia.onStatus :: " msgType
  | None =>
      report "Received NSmedia.onStatus callback for unknown media :: "
             (VStr id)
  end.

End Bridge.
End Bridge.

(* ===================================================================== *)
(** ** Concrete collaborators, for running the code                       *)
(* ===================================================================== *)

Module Sample.

(** The constants of the HTML [MediaError] interface. *)
Definition codes : NSmediaError :=
  {| MEDIA_ERR_ABORTED := of_Z 1; MEDIA_ERR_SRC_NOT_SUPPORTED := of_Z 4 |}.

(** An element that keeps what it is told and never throws. *)
Record player : Type := {
  p_src : value;
  p_currentTime : number;
  p_volume : value;
  p_paused : bool
}.

Definition sound : AudioPrimitive player :=
  {| new_Audio :=
       Normal {| p_src := VStr ""; p_currentTime := of_Z 0;
                 p_volume := VNum (of_Z 1); p_paused := true |};
     assign_src := fun v a =>
       (Normal tt, {| p_src := v; p_currentTime := p_currentTime a;
                      p_volume := p_volume a; p_paused := p_paused a |});
     node_play := fun a =>
       (Normal tt, {| p_src := p_src a; p_currentTime := p_currentTime a;
                      p_volume := p_volume a; p_paused := false |});
     node_pause := fun a =>
       (Normal tt, {| p_src := p_src a; p_currentTime := p_currentTime a;
                      p_volume := p_volume a; p_paused := true |});
     read_currentTime := fun a => (Normal (p_currentTime a), a);
     assign_currentTime := fun t a =>
       (Normal tt, {| p_src := p_src a; p_currentTime := t;
                      p_volume := p_volume a; p_paused := p_paused a |});
     assign_volume := fun v a =>
       (Normal tt, {| p_src := p_src a; p_currentTime := p_currentTime a;
                      p_volume := v; p_paused := p_paused a |}) |}.

(** An element that can be made, and then throws at every use. *)
Definition fault : value := VObj [("name", VStr "InvalidStateError")].

Definition faulty : AudioPrimitive unit :=
  {| new_Audio := Normal tt;
     assign_src := fun _ a => (Normal tt, a);
     node_play := fun a => (Throw fault, a);
     node_pause := fun a => (Throw fault, a);
     read_currentTime := fun a => (Throw fault, a);
     assign_currentTime := fun _ a => (Throw fault, a);
     assign_volume := fun _ a => (Throw fault, a) |}.

Definition on_success : callback := Callback "onSuccess".
Definition on_error : callback := Callback "onError".
Definition on_status : callback := Callback "onStatus".
Definition on_position : callback := Callback "onPosition".
Definition on_failure : callback := Callback "onFailure".

(** A page with nothing registered yet. *)
Definition empty {audio} : State audio :=
  {| mediaObjects := ∅; console_error := true; log := [] |}.

(** A media object with its three callbacks and the node [n]. *)
Definition song {audio} (n : option (Node audio)) : NSmedia audio :=
  {| id := "song"; src := VStr "song.mp3";
     successCallback := Some on_success; errorCallback := Some on_error;
     statusCallback := Some on_status;
     _duration := VNum (of_Z (-1)); _position := VNum (of_Z (-1));
     node := n |}.

(** The node that [createNode] makes for [song] over an element [a]. *)
Definition song_node {audio} (a : audio) : Node audio :=
  {| element := a;
     onloadstart := Some (OnLoadStart "song");
     onplaying := Some (OnPlaying "song");
     ondurationchange := Some (OnDurationChange "song");
     onerror := Some (OnError "song");
     onended := Some (OnEnded "song") |}.

(** The registry with [song] alone; nothing logged. *)
Definition page {audio} (n : option (Node audio)) : State audio :=
  {| mediaObjects := {[ "song" := song n ]}; console_error := true;
     log := [] |}.

End Sample.

(* ===================================================================== *)
(** ** The bridge-backed module: the methods, the replies, the pushes     *)
(* ===================================================================== *)

Module Native.

(** The function that a method hands to [exec] as its success function.
    Each closes over [me], the receiver. *)
Inductive reply : Type :=
| NoReply
    (** [null] *)
| ResetPosition (me : string)
    (** [function() { me._position = 0; }] *)
| StorePosition (me : string)
    (** [function(p) { me._position = p; }] *)
| StorePositionThen (me : string) (success : option callback).
    (** [function(p) { me._position = p; success(p); }] *)

(** What a method hands to [exec]. *)
Record command : Type := {
  on_success : reply;
  on_fail : option callback;
  service : string;
  action : string;
  args : list value
}.

(** A push of the native side, as it builds it: [action] and [status.id]
    are strings; [status] may be missing. *)
Record Status : Type := {
  status_id : string;
  status_msgType : value;
  status_value : value
}.

Record Message : Type := {
  msg_action : string;
  msg_status : option Status
}.

(** [new Error(message)] *)
Definition Error (message : string) : value :=
  VObj [("name", VStr "Error"); ("message", VStr message)].

Section Native.

Context {audio : Type}.

Local Open Scope js_scope.

(** [exec(success, fail, service, action, args)], for a method.  The
    command of a method may carry a function of the module itself as its
    success function, for which the events of [Heap] have no place; so a
    method gives the command it sends as its result. *)
Definition exec (success : reply) (fail : option callback)
    (service action : string) (args : list value) : M audio command :=
  ret {| on_success := success; on_fail := fail; service := service;
         action := action; args := args |}.

(** [NSmedia.get = function(id)]: [mediaObjects[id]], which is a media
    object, a member that the registry inherits, or [undefined]. *)
Definition get (id : string) : M audio (option (holder audio)) :=
  resolve id.

(** [NSmedia.prototype.play = function(options)] *)
Definition play (this : string) (options : value) : M audio command :=
  media <- self this ;;
  exec NoReply None "NSmedia" "startPlayingAudio"
       [VStr (id media); src media; options].

(** [NSmedia.prototype.stop] *)
Definition stop (this : string) : M audio command :=
  media <- self this ;;
  exec (ResetPosition this) (errorCallback media)
       "NSmedia" "stopPlayingAudio" [VStr (id media)].

(** [NSmedia.prototype.seekTo = function(milliseconds)] *)
Definition seekTo (this : string) (milliseconds : value)
  : M audio command :=
  media <- self this ;;
  exec (StorePosition this) (errorCallback media)
       "NSmedia" "seekToAudio" [VStr (id media); milliseconds].

(** [NSmedia.prototype.pause] *)
Definition pause (this : string) : M audio command :=
  media <- self this ;;
  exec NoReply (errorCallback media)
       "NSmedia" "pausePlayingAudio" [VStr (id media)].

(** [NSmedia.prototype.getCurrentPosition = function(success, fail)] *)
Definition getCurrentPosition (this : string)
    (success fail : option callback) : M audio command :=
  media <- self this ;;
  exec (StorePositionThen this success) fail
       "NSmedia" "getCurrentPositionAudio" [VStr (id media)].

(** [NSmedia.prototype.startRecord] *)
Definition startRecord (this : string) : M audio command :=
  media <- self this ;;
  exec NoReply (errorCallback media)
       "NSmedia" "startRecordingAudio" [VStr (id media); src media].

(** [NSmedia.prototype.stopRecord] *)
Definition stopRecord (this : string) : M audio command :=
  media <- self this ;;
  exec NoReply (errorCallback media)
       "NSmedia" "stopRecordingAudio" [VStr (id media)].

(** [NSmedia.prototype.release] *)
Definition release (this : string) : M audio command :=
  media <- self this ;;
  exec NoReply (errorCallback media) "NSmedia" "release" [VStr (id media)].

(** [NSmedia.prototype.setVolume = function(volume)] *)
Definition setVolume (this : string) (volume : value) : M audio command :=
  media <- self this ;;
  exec NoReply None "NSmedia" "setVolume" [VStr (id media); volume].

(** The body of a success function, called with [p]. *)
Definition succeed (r : reply) (p : value) : M audio unit :=
  match r with
  | NoReply => ret tt
  | ResetPosition me => update me (set_position (VNum (of_Z 0)))
  | StorePosition me => update me (set_position p)
  | StorePositionThen me success =>
      update me (set_position p) ;;
      call success [p]
  end.

(** The native side answers the command [c]: cordova calls its success
    function with the result, or its fail function with the error, when
    there is one. *)
Definition answer (c : command) (ok : bool) (arg : value) : M audio unit :=
  if ok then succeed (on_success c) arg
  else call_if_set (on_fail c) [arg].

(** [function onMessageFromNative(msg)] *)
Definition onMessageFromNative (msg : Message) : M audio unit :=
  if String.eqb (msg_action msg) "status" then
    match msg_status msg with
    | Some s =>
        Bridge.onStatus (status_id s) (status_msgType s) (status_value s)
    | None => throw (TypeError "Cannot read property id")
    end
  else throw (Error ("Unknown media action" ++ msg_action msg)).

End Native.

(** What the application and the native side may do to a page of this
    module, one step at a time. *)
Inductive call : Type :=
| New (uuid : string) (src : value)
      (successCallback errorCallback statusCallback : option callback)
| Play (this : string) (options : value)
| Stop (this : string)
| SeekTo (this : string) (milliseconds : value)
| Pause (this : string)
| GetDuration (this : string)
| GetCurrentPosition (this : string) (success fail : option callback)
| StartRecord (this : string)
| StopRecord (this : string)
| Release (this : string)
| SetVolume (this : string) (volume : value)
| Answer (c : command) (ok : bool) (arg : value)
| Push (msg : Message)
| OnStatus (id : string) (msgType value : value).

Section Steps.

Context {audio : Type}.

(** A call, for its effect on the page. *)
Definition void {R} (m : M audio R) : M audio unit :=
  bind m (fun _ => ret tt).

Definition perform (c : call) : M audio unit :=
  match c with
  | New uuid src s e t => void (Bridge.new_NSmedia uuid src s e t)
  | Play this options => void (play this options)
  | Stop this => void (stop this)
  | SeekTo this ms => void (seekTo this ms)
  | Pause this => void (pause this)
  | GetDuration this => void (Bridge.getDuration this)
  | GetCurrentPosition this s f => void (getCurrentPosition this s f)
  | StartRecord this => void (startRecord this)
  | StopRecord this => void (stopRecord this)
  | Release this => void (release this)
  | SetVolume this v => void (setVolume this v)
  | Answer c ok arg => answer c ok arg
  | Push msg => onMessageFromNative msg
  | OnStatus i t v => Bridge.onStatus i t v
  end.

(** The page after the calls [cs], one after the other; a call that
    throws leaves the page as it is by then. *)
Fixpoint session (cs : list call) (st : State audio)
  : option (State audio) :=
  match cs with
  | [] => Some st
  | c :: cs' =>
      match perform c st with
      | Some (_, st') => session cs' st'
      | None => None
      end
  end.

End Steps.

End Native.

(* ===================================================================== *)
(** ** The direct-backed module: pages at work                            *)
(* ===================================================================== *)

Module Page.

(** What the application and the browser may do to a page of this module,
    one step at a time: a call of the constructor or of a method, an event
    of an element (the observer [h] runs), a call of [NSmedia.onStatus]. *)
Inductive call : Type :=
| New (uuid : string) (src : value)
      (successCallback errorCallback statusCallback : option callback)
| Play (this : string)
| Stop (this : string)
| SeekTo (this : string) (milliseconds : value)
| Pause (this : string)
| GetDuration (this : string)
| GetCurrentPosition (this : string) (success fail : option callback)
| StartRecord (this : string)
| StopRecord (this : string)
| Release (this : string)
| SetVolume (this : string) (volume : value)
| Fire (h : handler) (e : Browser.Event)
| OnStatus (id : string) (msgType value : value).

Section Steps.

Context {audio : Type} {prim : AudioPrimitive audio} {codes : NSmediaError}.

(** A call, for its effect on the page. *)
Definition void {R} (m : M audio R) : M audio unit :=
  bind m (fun _ => ret tt).

Definition perform (c : call) : M audio unit :=
  match c with
  | New uuid src s e t => void (Browser.new_NSmedia uuid src s e t)
  | Play this => Browser.play this
  | Stop this => Browser.stop this
  | SeekTo this ms => Browser.seekTo this ms
  | Pause this => Browser.pause this
  | GetDuration this => void (Browser.getDuration this)
  | GetCurrentPosition this s f => Browser.getCurrentPosition this s f
  | StartRecord this => Browser.startRecord this
  | StopRecord this => Browser.stopRecord this
  | Release this => Browser.release this
  | SetVolume this v => Browser.setVolume this v
  | Fire h e => Browser.fire h e
  | OnStatus i t v => Browser.onStatus i t v
  end.

(** The page after the calls [cs], one after the other; a call that
    throws leaves the page as it is by then. *)
Fixpoint session (cs : list call) (st : State audio)
  : option (State audio) :=
  match cs with
  | [] => Some st
  | c :: cs' =>
      match perform c st with
      | Some (_, st') => session cs' st'
      | None => None
      end
  end.

End Steps.

End Page.

(* ===================================================================== *)
(** ** What a page keeps                                                  *)
(* ===================================================================== *)

Module Keeps.
Section Keeps.

Context {audio : Type}.

(** The properties of a media object that the constructor sets and that
    nothing else assigns. *)
Definition core (m : NSmedia audio)
  : string * value * option callback * option callback * option callback :=
  (id m, src m, successCallback m, errorCallback m, statusCallback m).

Definition numeric (v : value) : Prop := exists n, v = VNum n.

(** The five observers of a node report to the object [i]. *)
Definition observers_of (i : string) (n : Node audio) : Prop :=
  onloadstart n = Some (OnLoadStart i)
  /\ onplaying n = Some (OnPlaying i)
  /\ ondurationchange n = Some (OnDurationChange i)
  /\ onerror n = Some (OnError i)
  /\ onended n = Some (OnEnded i).

(** The node of [m], when it has one, reports to [m]. *)
Definition wired (m : NSmedia audio) : Prop :=
  forall n, node m = Some n -> observers_of (id m) n.

(** From [m] to [m'] the object kept what the constructor set, a numeric
    position, a node that reports to it, and the lack of a node when
    [nodeless] is set. *)
Definition unfolds (nodeless : bool) (m m' : NSmedia audio) : Prop :=
  core m = core m'
  /\ (wired m -> wired m')
  /\ (if nodeless then (node m = None -> node m' = None)
      else (numeric (_position m) -> numeric (_position m'))).

(** From [st] to [st'] the same ids are registered, and each object
    unfolds. *)
Definition evolves (nodeless : bool) (st st' : State audio) : Prop :=
  forall j,
    match mediaObjects st !! j, mediaObjects st' !! j with
    | Some m, Some m' => unfolds nodeless m m'
    | None, None => True
    | _, _ => False
    end.


(** A computation that only lets the page evolve. *)
Definition steady (nodeless : bool) {R} (m : M audio R) : Prop :=
  forall st c st', m st = Some (c, st') -> evolves nodeless st st'.

(** The same, for the run from the state [st]. *)
Definition steady_from (nodeless : bool) (st : State audio) {R}
    (m : M audio R) : Prop :=
  forall c st', m st = Some (c, st') -> evolves nodeless st st'.

(** A page of the direct-backed module in good order: each object is
    stored under its own id, caches a Number as its position, and has a
    node, if any, that reports to it. *)
Definition healthy (st : State audio) : Prop :=
  forall i m,
    mediaObjects st !! i = Some m ->
    id m = i /\ numeric (_position m) /\ wired m.

(** A page of the bridge-backed module in good order: each object is
    stored under its own id and has no node. *)
Definition plain (st : State audio) : Prop :=
  forall i m, mediaObjects st !! i = Some m -> id m = i /\ node m = None.

End Keeps.
End Keeps.

(** More samples: a second media object, without callbacks. *)
Module Demo.

Definition tune {audio} (n : option (Node audio)) : NSmedia audio :=
  {| id := "tune"; src := VStr "tune.ogg";
     successCallback := None; errorCallback := None; statusCallback := None;
     _duration := VNum (of_Z 180); _position := VNum (of_Z 7);
     node := n |}.

(** The registry with [song] and [tune], the first with the node [n]. *)
Definition pair {audio} (n : option (Node audio)) : State audio :=
  {| mediaObjects := <[ "tune" := tune None ]> {[ "song" := Sample.song n ]};
     console_error := true; log := [] |}.

(** The element of [song] once its source is set. *)
Definition loaded : Sample.player :=
  {| Sample.p_src := VStr "song.mp3"; Sample.p_currentTime := of_Z 0;
     Sample.p_volume := VNum (of_Z 1); Sample.p_paused := true |}.

(** An error value, as a native side or an element may give. *)
Definition boom : value := VObj [("code", VNum (of_Z 3))].

(** An element that cannot be made. *)
Definition missing : AudioPrimitive unit :=
  {| new_Audio := Throw (VObj [("name", VStr "ReferenceError")]);
     assign_src := fun _ a => (Normal tt, a);
     node_play := fun a => (Normal tt, a);
     node_pause := fun a => (Normal tt, a);
     read_currentTime := fun a => (Normal (of_Z 0), a);
     assign_currentTime := fun _ a => (Normal tt, a);
     assign_volume := fun _ a => (Normal tt, a) |}.

End Demo.



(* ===================================================================== *)
(** ** Numbers and comparisons at work                                    *)
(* ===================================================================== *)

(** 12.5 is the binary64 value with mantissa [25 * 2^48] and exponent
    [-49]. *)
Example twelve_and_a_half_bits :
  twelve_and_a_half = S754_finite false (25 * 2 ^ 48) (-49).
Proof. vm_compute. reflexivity. Qed.

Example number_of_12_5 : string_to_number "12.5" = twelve_and_a_half.
Proof. vm_compute. reflexivity. Qed.

(** One tenth is not a binary fraction: the nearest Number is
    [0x1999999999999A * 2^-56]. *)
Example number_of_0_1 :
  string_to_number "0.1" = S754_finite false 7205759403792794 (-56).
Proof. vm_compute. reflexivity. Qed.

Example number_of_padded : string_to_number "  4.0e0 " = of_Z 4.
Proof. vm_compute. reflexivity. Qed.

Example number_of_no_break_space :
  string_to_number (String (ascii_of_nat 160) "12.5") = twelve_and_a_half
  /\ string_to_number ("1500" ++ String (ascii_of_nat 160) "") = of_Z 1500.
Proof. vm_compute. by split. Qed.

Example no_break_space_is_loosely_stopped :
  loose_equals (VStr (String (ascii_of_nat 160) "4")) MEDIA_STOPPED = true
  /\ strict_equals (VStr (String (ascii_of_nat 160) "4")) MEDIA_STOPPED
     = false.
Proof. vm_compute. by split. Qed.

Example number_of_hex : string_to_number "0x10" = of_Z 16.
Proof. vm_compute. reflexivity. Qed.

Example number_of_empty : string_to_number "" = S754_zero false.
Proof. reflexivity. Qed.

Example number_of_words : string_to_number "Not supported" = NaN.
Proof. vm_compute. reflexivity. Qed.

Example number_of_huge : string_to_number "1e400" = S754_infinity false.
Proof. vm_compute. reflexivity. Qed.

(** Ties go to the even mantissa: [2^53 + 1] is read as [2^53]. *)
Example number_of_tie :
  string_to_number "9007199254740993" = of_Z 9007199254740992.
Proof. vm_compute. reflexivity. Qed.

Example smallest_number :
  string_to_number "5e-324" = S754_finite false 1 (-1074).
Proof. vm_compute. reflexivity. Qed.

(** ["4" == 4] holds and ["4" === 4] does not. *)
Example loose_is_not_strict :
  loose_equals (VStr "4") (of_Z 4) = true
  /\ strict_equals (VStr "4") (of_Z 4) = false.
Proof. split; vm_compute; reflexivity. Qed.

Example nan_equals_nothing :
  strict_equals (VNum NaN) NaN = false /\ loose_equals (VNum NaN) NaN = false.
Proof. split; reflexivity. Qed.

Example object_equals_no_number :
  loose_equals (VObj [("code", VNum (of_Z 4))]) (of_Z 4) = false.
Proof. vm_compute. reflexivity. Qed.

(** Evaluates the tests of a [switch] on literal message types. *)
Ltac eval_tests :=
  repeat match goal with
  | |- context [strict_equals (VNum ?a) ?b] =>
      let r := eval vm_compute in (strict_equals (VNum a) b) in
      change (strict_equals (VNum a) b) with r
  | |- context [loose_equals (VNum ?a) ?b] =>
      let r := eval vm_compute in (loose_equals (VNum a) b) in
      change (loose_equals (VNum a) b) with r
  end.

(* ===================================================================== *)
(** ** Runs of the monad                                                  *)
(* ===================================================================== *)

Section Runs.

Context {audio : Type}.
Implicit Types (st : State audio) (media : NSmedia audio) (i : string).

Lemma logged_nil st : logged [] st = st.
Proof.
  destruct st as [objs c l]. unfold logged, with_log. cbn.
  by rewrite app_nil_r.
Qed.

Lemma logged_app st (a b : list event) :
  logged b (logged a st) = logged (a ++ b)%list st.
Proof.
  unfold logged, with_log. cbn. by rewrite app_assoc.
Qed.

Lemma call_if_set_run (f : option callback) args st :
  call_if_set f args st = Some (Normal tt, logged (invocation f args) st).
Proof.
  destruct f as [c|]; cbn; [reflexivity|]. by rewrite logged_nil.
Qed.

Lemma report_run text operand st :
  report text operand st
  = Some (Normal tt, logged (diagnostic st text operand) st).
Proof.
  unfold report, diagnostic. destruct (console_error st); cbn.
  - reflexivity.
  - by rewrite logged_nil.
Qed.

Lemma update_run i (f : NSmedia audio -> NSmedia audio) media st :
  mediaObjects st !! i = Some media ->
  update i f st = Some (Normal tt, stored i (f media) st).
Proof.
  intros Hi. unfold update, stored, with_objects.
  by rewrite (alter_alt_Some _ _ _ _ Hi).
Qed.

Lemma self_run i media st :
  mediaObjects st !! i = Some media -> self i st = Some (Normal media, st).
Proof. intros Hi. unfold self. by rewrite Hi. Qed.

Lemma stored_lookup i media st : mediaObjects (stored i media st) !! i = Some media.
Proof. cbn. apply lookup_insert_eq. Qed.

Lemma stored_lookup_ne i j media st :
  i <> j -> mediaObjects (stored i media st) !! j = mediaObjects st !! j.
Proof. intros Hij. cbn. by apply lookup_insert_ne. Qed.

Lemma stored_stored i (m1 m2 : NSmedia audio) st :
  stored i m2 (stored i m1 st) = stored i m2 st.
Proof. unfold stored, with_objects. cbn. by rewrite insert_insert_eq. Qed.

Lemma stored_logged i media (evs : list event) st :
  stored i media (logged evs st) = logged evs (stored i media st).
Proof. reflexivity. Qed.

Lemma logged_lookup (evs : list event) st i :
  mediaObjects (logged evs st) !! i = mediaObjects st !! i.
Proof. reflexivity. Qed.

Lemma diagnostic_calls_nothing st text operand f args :
  Call f args ∉ diagnostic st text operand.
Proof.
  unfold diagnostic. destruct (console_error st).
  - rewrite list_elem_of_singleton. discriminate.
  - apply not_elem_of_nil.
Qed.

(** A refused argument: the message is logged, and then thrown; the
    registry stays as it was. *)
Lemma checkArgs_refused (required : bool) (src : value) st c st' :
  accepts required src = false ->
  checkArgs required src st = Some (c, st') ->
  (exists e, c = Throw e) /\ mediaObjects st' = mediaObjects st.
Proof.
  intros Hacc. unfold checkArgs, bind, console_error_call, throw, emit.
  rewrite Hacc. destruct (console_error st); intros [= <- <-]; eauto.
Qed.

Lemma registered_logged (evs : list event) st i :
  registered st i -> registered (logged evs st) i.
Proof. intros Hr. exact Hr. Qed.

Lemma registered_alter (f : NSmedia audio -> NSmedia audio) j st i :
  (forall m, id (f m) = id m) ->
  registered st i -> registered (with_objects (alter f j) st) i.
Proof.
  intros Hf (media & Hi & Hid). unfold registered. cbn.
  destruct (decide (j = i)) as [->|Hne].
  - exists (f media). rewrite lookup_alter_eq, Hi. cbn.
    split; [reflexivity|]. by rewrite Hf.
  - exists media. by rewrite lookup_alter_ne.
Qed.

Lemma registered_stored media j st i :
  id media = j -> registered st i -> registered (stored j media st) i.
Proof.
  intros Hj (m & Hi & Hid). unfold registered.
  destruct (decide (j = i)) as [->|Hne].
  - exists media. by rewrite stored_lookup.
  - exists m. by rewrite stored_lookup_ne.
Qed.

End Runs.

(* ===================================================================== *)
(** ** The dispatcher, branch by branch                                   *)
(* ===================================================================== *)

Section Dispatcher.

Context {audio : Type}.
Implicit Types (st : State audio) (media : NSmedia audio) (i : string).

(** *** One equation per branch, for each module *)

Lemma browser_state st i media (value : JS.value) :
  mediaObjects st !! i = Some media ->
  Browser.onStatus i (VNum MEDIA_STATE) value st
  = Some (Normal tt,
          logged (invocation (statusCallback media) [value]
                  ++ (if strict_equals value MEDIA_STOPPED
                      then invocation (successCallback media) []
                      else []))%list st).
Proof.
  intros Hi. unfold Browser.onStatus, bind, resolve, found, assign, callback_of.
  rewrite Hi.
  eval_tests. cbv beta iota. rewrite call_if_set_run.
  destruct (strict_equals value MEDIA_STOPPED).
  - by rewrite call_if_set_run, logged_app.
  - cbn. by rewrite app_nil_r.
Qed.

Lemma bridge_state st i media (value : JS.value) :
  mediaObjects st !! i = Some media ->
  Bridge.onStatus i (VNum MEDIA_STATE) value st
  = Some (Normal tt,
          logged (invocation (statusCallback media) [value]
                  ++ (if loose_equals value MEDIA_STOPPED
                      then invocation (successCallback media) []
                      else []))%list st).
Proof.
  intros Hi. unfold Bridge.onStatus, bind, resolve, found, assign, callback_of.
  rewrite Hi.
  eval_tests. cbv beta iota. rewrite call_if_set_run.
  destruct (loose_equals value MEDIA_STOPPED).
  - by rewrite call_if_set_run, logged_app.
  - cbn. by rewrite app_nil_r.
Qed.

Lemma browser_duration st i media (value : JS.value) :
  mediaObjects st !! i = Some media ->
  Browser.onStatus i (VNum MEDIA_DURATION) value st
  = Some (Normal tt, stored i (set_duration value media) st).
Proof.
  intros Hi. unfold Browser.onStatus, bind, resolve, found, assign, callback_of.
  rewrite Hi.
  eval_tests. cbv beta iota. by apply update_run.
Qed.

Lemma bridge_duration st i media (value : JS.value) :
  mediaObjects st !! i = Some media ->
  Bridge.onStatus i (VNum MEDIA_DURATION) value st
  = Some (Normal tt, stored i (set_duration value media) st).
Proof.
  intros Hi. unfold Bridge.onStatus, bind, resolve, found, assign, callback_of.
  rewrite Hi.
  eval_tests. cbv beta iota. by apply update_run.
Qed.

Lemma browser_error st i media (value : JS.value) :
  mediaObjects st !! i = Some media ->
  Browser.onStatus i (VNum MEDIA_ERROR) value st
  = Some (Normal tt, logged (invocation (errorCallback media) [value]) st).
Proof.
  intros Hi. unfold Browser.onStatus, bind, resolve, found, assign, callback_of.
  rewrite Hi.
  eval_tests. cbv beta iota. apply call_if_set_run.
Qed.

Lemma bridge_error st i media (value : JS.value) :
  mediaObjects st !! i = Some media ->
  Bridge.onStatus i (VNum MEDIA_ERROR) value st
  = Some (Normal tt, logged (invocation (errorCallback media) [value]) st).
Proof.
  intros Hi. unfold Bridge.onStatus, bind, resolve, found, assign, callback_of.
  rewrite Hi.
  eval_tests. cbv beta iota. apply call_if_set_run.
Qed.

Lemma browser_position st i media (value : JS.value) :
  mediaObjects st !! i = Some media ->
  Browser.onStatus i (VNum MEDIA_POSITION) value st
  = Some (Normal tt,
          stored i (set_position (VNum (to_number value)) media) st).
Proof.
  intros Hi. unfold Browser.onStatus, bind, resolve, found, assign, callback_of.
  rewrite Hi.
  eval_tests. cbv beta iota. by apply update_run.
Qed.

Lemma bridge_position st i media (value : JS.value) :
  mediaObjects st !! i = Some media ->
  Bridge.onStatus i (VNum MEDIA_POSITION) value st
  = Some (Normal tt,
          stored i (set_position (VNum (to_number value)) media) st).
Proof.
  intros Hi. unfold Bridge.onStatus, bind, resolve, found, assign, callback_of.
  rewrite Hi.
  eval_tests. cbv beta iota. by apply update_run.
Qed.

(** *** An id that the registry does not have as its own *)

Lemma found_registered st i media :
  mediaObjects st !! i = Some media -> found i st = Some (Registered media).
Proof. intros Hi. unfold found. by rewrite Hi. Qed.

Lemma found_inherited st i :
  mediaObjects st !! i = None -> inherits i = true ->
  found i st = Some (Inherited i).
Proof. intros Hi Hin. unfold found. by rewrite Hi, Hin. Qed.

Lemma found_unknown st i :
  mediaObjects st !! i = None -> inherits i = false -> found i st = None.
Proof. intros Hi Hin. unfold found. by rewrite Hi, Hin. Qed.


(** On a member that the registry inherits, the dispatchers find no
    callback and assign to the member itself. *)
Lemma browser_inherited st i (msgType value : JS.value) :
  mediaObjects st !! i = None -> inherits i = true ->
  Browser.onStatus i msgType value st
  = Some (Normal tt, logged (on_inherited st i msgType value) st).
Proof.
  intros Hi Hin. unfold Browser.onStatus, bind, resolve, on_inherited.
  rewrite (found_inherited _ _ Hi Hin). cbn [assign callback_of call_if_set].
  destruct (strict_equals msgType MEDIA_STATE).
  { rewrite logged_nil. unfold ret.
    by destruct (strict_equals value MEDIA_STOPPED). }
  destruct (strict_equals msgType MEDIA_DURATION); [reflexivity|].
  destruct (strict_equals msgType MEDIA_ERROR); [by rewrite logged_nil|].
  destruct (strict_equals msgType MEDIA_POSITION); [reflexivity|].
  apply report_run.
Qed.

Lemma bridge_inherited st i (msgType value : JS.value) :
  mediaObjects st !! i = None -> inherits i = true ->
  Bridge.onStatus i msgType value st
  = Some (Normal tt, logged (on_inherited st i msgType value) st).
Proof.
  intros Hi Hin. unfold Bridge.onStatus, bind, resolve, on_inherited.
  rewrite (found_inherited _ _ Hi Hin). cbn [assign callback_of call_if_set].
  destruct (strict_equals msgType MEDIA_STATE).
  { rewrite logged_nil. unfold ret.
    by destruct (loose_equals value MEDIA_STOPPED). }
  destruct (strict_equals msgType MEDIA_DURATION); [reflexivity|].
  destruct (strict_equals msgType MEDIA_ERROR); [by rewrite logged_nil|].
  destruct (strict_equals msgType MEDIA_POSITION); [reflexivity|].
  apply report_run.
Qed.

(** On any other id that is not registered, they report it. *)
Lemma browser_unknown st i (msgType value : JS.value) :
  mediaObjects st !! i = None -> inherits i = false ->
  Browser.onStatus i msgType value st
  = Some (Normal tt,
          logged (diagnostic st
                    "Received NSmedia.onStatus callback for unknown media :: "
                    (VStr i)) st).
Proof.
  intros Hi Hin. unfold Browser.onStatus, bind, resolve.
  rewrite (found_unknown _ _ Hi Hin). apply report_run.
Qed.

Lemma bridge_unknown st i (msgType value : JS.value) :
  mediaObjects st !! i = None -> inherits i = false ->
  Bridge.onStatus i msgType value st
  = Some (Normal tt,
          logged (diagnostic st
                    "Received NSmedia.onStatus callback for unknown media :: "
                    (VStr i)) st).
Proof.
  intros Hi Hin. unfold Bridge.onStatus, bind, resolve.
  rewrite (found_unknown _ _ Hi Hin). apply report_run.
Qed.

Lemma on_inherited_calls_nothing st i (msgType value : JS.value) f args :
  Call f args ∉ on_inherited st i msgType value.
Proof.
  unfold on_inherited.
  destruct (strict_equals msgType MEDIA_STATE); [apply not_elem_of_nil|].
  destruct (strict_equals msgType MEDIA_DURATION).
  { rewrite list_elem_of_singleton. discriminate. }
  destruct (strict_equals msgType MEDIA_ERROR); [apply not_elem_of_nil|].
  destruct (strict_equals msgType MEDIA_POSITION).
  { rewrite list_elem_of_singleton. discriminate. }
  apply diagnostic_calls_nothing.
Qed.

(** Either way, all that the dispatchers do then is to append to the log,
    and no call. *)
Lemma browser_not_registered st i (msgType value : JS.value) :
  mediaObjects st !! i = None ->
  exists evs,
    Browser.onStatus i msgType value st = Some (Normal tt, logged evs st)
    /\ forall f args, Call f args ∉ evs.
Proof.
  intros Hi. destruct (inherits i) eqn:Hin.
  - rewrite (browser_inherited _ _ _ _ Hi Hin). eexists. split; [reflexivity|].
    intros f args. apply on_inherited_calls_nothing.
  - rewrite (browser_unknown _ _ _ _ Hi Hin). eexists. split; [reflexivity|].
    intros f args. apply diagnostic_calls_nothing.
Qed.

Lemma bridge_not_registered st i (msgType value : JS.value) :
  mediaObjects st !! i = None ->
  exists evs,
    Bridge.onStatus i msgType value st = Some (Normal tt, logged evs st)
    /\ forall f args, Call f args ∉ evs.
Proof.
  intros Hi. destruct (inherits i) eqn:Hin.
  - rewrite (bridge_inherited _ _ _ _ Hi Hin). eexists. split; [reflexivity|].
    intros f args. apply on_inherited_calls_nothing.
  - rewrite (bridge_unknown _ _ _ _ Hi Hin). eexists. split; [reflexivity|].
    intros f args. apply diagnostic_calls_nothing.
Qed.

(** The browser's dispatcher always returns, and keeps what is
    registered. *)
Lemma browser_onStatus_returns st i (msgType value : JS.value) :
  exists st',
    Browser.onStatus i msgType value st = Some (Normal tt, st')
    /\ (forall j, registered st j -> registered st' j).
Proof.
  destruct (mediaObjects st !! i) as [media|] eqn:Hi;
    [|destruct (browser_not_registered st i msgType value Hi) as (evs & -> & _);
      eauto].
  unfold Browser.onStatus, bind, resolve, assign, callback_of.
  rewrite (found_registered _ _ _ Hi). cbv beta iota.
  - destruct (strict_equals msgType MEDIA_STATE).
    { rewrite call_if_set_run. cbv beta iota.
      destruct (strict_equals value MEDIA_STOPPED).
      - rewrite call_if_set_run. eauto.
      - eexists; split; [reflexivity|]. auto. }
    destruct (strict_equals msgType MEDIA_DURATION).
    { eexists; split; [reflexivity|].
      intros j. by apply registered_alter. }
    destruct (strict_equals msgType MEDIA_ERROR).
    { rewrite call_if_set_run. eauto. }
    destruct (strict_equals msgType MEDIA_POSITION).
    { eexists; split; [reflexivity|].
      intros j. by apply registered_alter. }
    rewrite report_run. eauto.
Qed.

(** A message of another type than [MEDIA_DURATION] leaves every cached
    duration as it was. *)
Lemma browser_keeps_duration st i (msgType value : JS.value) st' j media :
  strict_equals msgType MEDIA_DURATION = false ->
  Browser.onStatus i msgType value st = Some (Normal tt, st') ->
  mediaObjects st !! j = Some media ->
  exists media',
    mediaObjects st' !! j = Some media' /\ _duration media' = _duration media.
Proof.
  intros Hd Hrun Hj. revert Hrun.
  destruct (mediaObjects st !! i) as [m|] eqn:Hi;
    [|destruct (browser_not_registered st i msgType value Hi) as (evs & -> & _);
      intros [= <-]; eauto].
  unfold Browser.onStatus, bind, resolve, assign, callback_of.
  rewrite (found_registered _ _ _ Hi). cbv beta iota. rewrite Hd.
  - destruct (strict_equals msgType MEDIA_STATE).
    { rewrite call_if_set_run. cbv beta iota.
      destruct (strict_equals value MEDIA_STOPPED).
      - rewrite call_if_set_run. intros [= <-]. eauto.
      - intros [= <-]. eauto. }
    destruct (strict_equals msgType MEDIA_ERROR).
    { rewrite call_if_set_run. intros [= <-]. eauto. }
    destruct (strict_equals msgType MEDIA_POSITION).
    { rewrite (update_run _ _ _ _ Hi). intros [= <-].
      destruct (decide (i = j)) as [->|Hne].
      - rewrite stored_lookup. rewrite Hi in Hj. injection Hj as ->. eauto.
      - rewrite stored_lookup_ne by exact Hne. eauto. }
    rewrite report_run. intros [= <-]. eauto.
Qed.

Lemma bridge_keeps_duration st i (msgType value : JS.value) st' j media :
  strict_equals msgType MEDIA_DURATION = false ->
  Bridge.onStatus i msgType value st = Some (Normal tt, st') ->
  mediaObjects st !! j = Some media ->
  exists media',
    mediaObjects st' !! j = Some media' /\ _duration media' = _duration media.
Proof.
  intros Hd Hrun Hj. revert Hrun.
  destruct (mediaObjects st !! i) as [m|] eqn:Hi;
    [|destruct (bridge_not_registered st i msgType value Hi) as (evs & -> & _);
      intros [= <-]; eauto].
  unfold Bridge.onStatus, bind, resolve, assign, callback_of.
  rewrite (found_registered _ _ _ Hi). cbv beta iota. rewrite Hd.
  - destruct (strict_equals msgType MEDIA_STATE).
    { rewrite call_if_set_run. cbv beta iota.
      destruct (loose_equals value MEDIA_STOPPED).
      - rewrite call_if_set_run. intros [= <-]. eauto.
      - intros [= <-]. eauto. }
    destruct (strict_equals msgType MEDIA_ERROR).
    { rewrite call_if_set_run. intros [= <-]. eauto. }
    destruct (strict_equals msgType MEDIA_POSITION).
    { rewrite (update_run _ _ _ _ Hi). intros [= <-].
      destruct (decide (i = j)) as [->|Hne].
      - rewrite stored_lookup. rewrite Hi in Hj. injection Hj as ->. eauto.
      - rewrite stored_lookup_ne by exact Hne. eauto. }
    rewrite report_run. intros [= <-]. eauto.
Qed.

(** Where the two dispatchers can differ: only in the test for
    [MEDIA_STOPPED] of a state message. *)
Lemma dispatchers_agree st i (msgType value : JS.value) :
  (strict_equals msgType MEDIA_STATE = true ->
   loose_equals value MEDIA_STOPPED = strict_equals value MEDIA_STOPPED) ->
  Browser.onStatus i msgType value st = Bridge.onStatus i msgType value st.
Proof.
  intros Hsame. unfold Browser.onStatus, Bridge.onStatus, bind, resolve.
  cbv beta iota. destruct (found i st) as [media|]; [|reflexivity].
  destruct (strict_equals msgType MEDIA_STATE); [|reflexivity].
  by rewrite Hsame.
Qed.

(** On a Number, [==] and [===] are the same test. *)
Lemma loose_equals_number (n m : number) :
  loose_equals (VNum n) m = strict_equals (VNum n) m.
Proof. reflexivity. Qed.

Lemma dispatchers_agree_on_numbers st i (msgType : JS.value) (n : number) :
  Browser.onStatus i msgType (VNum n) st
  = Bridge.onStatus i msgType (VNum n) st.
Proof. apply dispatchers_agree. intros _. apply loose_equals_number. Qed.

(** C2. For a registered id, [onStatus(id, MEDIA_STATE, MEDIA_STOPPED)]
    calls the status callback with [MEDIA_STOPPED] and then the success
    callback with no argument, each if it is set, and does nothing else;
    in both modules. *)
Theorem stopped_calls_status_then_success st i media :
  mediaObjects st !! i = Some media ->
  let calls :=
    (invocation (statusCallback media) [VNum MEDIA_STOPPED]
     ++ invocation (successCallback media) [])%list in
  Browser.onStatus i (VNum MEDIA_STATE) (VNum MEDIA_STOPPED) st
    = Some (Normal tt, logged calls st)
  /\ Bridge.onStatus i (VNum MEDIA_STATE) (VNum MEDIA_STOPPED) st
    = Some (Normal tt, logged calls st).
Proof.
  intros Hi calls.
  unfold Browser.onStatus, Bridge.onStatus, bind, resolve, found, assign,
    callback_of.
  rewrite Hi.
  eval_tests. cbv beta iota.
  rewrite !call_if_set_run, !logged_app. by split.
Qed.


(** C5. For a registered id, [onStatus(id, MEDIA_POSITION, "12.5")] stores
    the number 12.5 as the position of that object, and does nothing else:
    no callback is called, nothing is logged; in both modules. *)
Theorem position_string_is_coerced st i media :
  mediaObjects st !! i = Some media ->
  let after := stored i (set_position (VNum twelve_and_a_half) media) st in
  Browser.onStatus i (VNum MEDIA_POSITION) (VStr "12.5") st
    = Some (Normal tt, after)
  /\ Bridge.onStatus i (VNum MEDIA_POSITION) (VStr "12.5") st
    = Some (Normal tt, after)
  /\ log after = log st.
Proof.
  intros Hi after.
  unfold Browser.onStatus, Bridge.onStatus, bind, resolve, found, assign,
    callback_of.
  rewrite Hi.
  eval_tests. cbv beta iota.
  rewrite (update_run _ _ _ _ Hi).
  change (to_number (VStr "12.5")) with (string_to_number "12.5").
  replace (string_to_number "12.5") with twelve_and_a_half
    by (vm_compute; reflexivity).
  by repeat split.
Qed.


(** C10. For a registered id, [onStatus(id, MEDIA_DURATION, v)] stores [v]
    as it is: after the string ["42"], [getDuration] returns that string
    and not the number 42, whereas [MEDIA_POSITION] with the same string
    stores the number 42.  In both modules. *)
Theorem duration_is_not_coerced st i media (v : JS.value) :
  mediaObjects st !! i = Some media ->
  let after := stored i (set_duration v media) st in
  Browser.onStatus i (VNum MEDIA_DURATION) v st = Some (Normal tt, after)
  /\ Bridge.onStatus i (VNum MEDIA_DURATION) v st = Some (Normal tt, after)
  /\ Browser.getDuration i after = Some (Normal v, after)
  /\ Bridge.getDuration i after = Some (Normal v, after)
  /\ (v = VStr "42" ->
      Browser.getDuration i after <> Some (Normal (VNum (of_Z 42)), after)
      /\ Browser.onStatus i (VNum MEDIA_POSITION) v st
         = Some (Normal tt, stored i (set_position (VNum (of_Z 42)) media) st)
      /\ Bridge.onStatus i (VNum MEDIA_POSITION) v st
         = Some (Normal tt, stored i (set_position (VNum (of_Z 42)) media) st)).
Proof.
  intros Hi after.
  assert (Hget : Browser.getDuration i after = Some (Normal v, after)).
  { unfold Browser.getDuration, bind.
    by rewrite (self_run i _ after (stored_lookup i _ st)). }
  split; [by apply browser_duration|].
  split; [by apply bridge_duration|].
  split; [exact Hget|]. split; [exact Hget|].
  intros ->. split; [rewrite Hget; discriminate|].
  rewrite (browser_position _ _ _ _ Hi), (bridge_position _ _ _ _ Hi).
  change (to_number (VStr "42")) with (string_to_number "42").
  replace (string_to_number "42") with (of_Z 42) by (vm_compute; reflexivity).
  by split.
Qed.

End Dispatcher.

(* ===================================================================== *)
(** ** The methods of the browser module                                  *)
(* ===================================================================== *)

Section Methods.

Context {audio : Type} {prim : AudioPrimitive audio} {codes : NSmediaError}.
Implicit Types (st : State audio) (media : NSmedia audio) (i : string).

(** [createNode] reads [id] and [src] of its argument and nothing of the
    state, which it leaves as it is. *)
Lemma createNode_pure media st c st0 :
  Browser.createNode media st = Some (c, st0) ->
  st0 = st
  /\ forall x st', Browser.createNode (set_node x media) st' = Some (c, st').
Proof.
  unfold Browser.createNode, bind, lift, ret. cbn.
  destruct new_Audio as [a|e]; [|intros [= <- <-]; by split].
  destruct (to_boolean (src media)); [|intros [= <- <-]; by split].
  destruct (assign_src (src media) a) as [[[]|e] a'];
    intros [= <- <-]; by split.
Qed.

Lemma createNode_returns media st :
  exists c, Browser.createNode media st = Some (c, st).
Proof.
  unfold Browser.createNode, bind, lift, ret. cbn.
  destruct new_Audio as [a|e]; [|eauto].
  destruct (to_boolean (src media)); [|eauto].
  destruct (assign_src (src media) a) as [[[]|e] a']; eauto.
Qed.

Lemma on_node_run {R} i media n (op : audio -> completion R * audio) st :
  mediaObjects st !! i = Some media ->
  node media = Some n ->
  Browser.on_node i op st
  = Some (fst (op (element n)),
          stored i (set_node (Some (set_element (snd (op (element n))) n))
                             media) st).
Proof.
  intros Hi Hn. unfold Browser.on_node, bind.
  rewrite (self_run _ _ _ Hi), Hn. cbv beta iota.
  destruct (op (element n)) as [c a']. cbn [fst snd].
  rewrite (update_run _ _ _ _ Hi). by destruct c.
Qed.

Lemma on_node_absent {R} i media (op : audio -> completion R * audio) st :
  mediaObjects st !! i = Some media ->
  node media = None ->
  Browser.on_node i op st
  = Some (Throw (TypeError "this.node is undefined"), st).
Proof.
  intros Hi Hn. unfold Browser.on_node, bind.
  by rewrite (self_run _ _ _ Hi), Hn.
Qed.

(** An operation on the node returns or throws, and keeps what is
    registered. *)
Lemma on_node_keeps {R} i (op : audio -> completion R * audio) st :
  registered st i ->
  exists c st',
    Browser.on_node i op st = Some (c, st') /\ registered st' i
    /\ log st' = log st.
Proof.
  intros (media & Hi & Hid).
  destruct (node media) as [n|] eqn:Hn.
  - rewrite (on_node_run _ _ _ _ _ Hi Hn). do 2 eexists.
    split; [reflexivity|]. split; [|reflexivity].
    apply registered_stored; [exact Hid|]. by exists media.
  - rewrite (on_node_absent _ _ _ _ Hi Hn). do 2 eexists.
    split; [reflexivity|]. split; [|reflexivity]. by exists media.
Qed.

Lemma try_catch_normal {R} (body : M audio R) handle st r st' :
  body st = Some (Normal r, st') ->
  try_catch body handle st = Some (Normal r, st').
Proof. intros Hb. unfold try_catch. by rewrite Hb. Qed.

(** *** pause, seekTo, stop, release *)

Lemma pause_fault st i media n e a' :
  mediaObjects st !! i = Some media -> id media = i ->
  node media = Some n ->
  node_pause (element n) = (Throw e, a') ->
  Browser.pause i st
  = Browser.onStatus i (VNum MEDIA_ERROR) e
      (stored i (set_node (Some (set_element a' n)) media) st).
Proof.
  intros Hi Hid Hn Hop. unfold Browser.pause, bind, try_catch.
  rewrite (self_run _ _ _ Hi). cbv beta iota.
  rewrite (on_node_run _ _ _ _ _ Hi Hn), Hop, Hid. reflexivity.
Qed.

Lemma seekTo_fault st i media (milliseconds : value) n e a' :
  mediaObjects st !! i = Some media -> id media = i ->
  node media = Some n ->
  assign_currentTime (div (to_number milliseconds) (of_Z 1000)) (element n)
    = (Throw e, a') ->
  Browser.seekTo i milliseconds st
  = Browser.onStatus i (VNum MEDIA_ERROR) e
      (stored i (set_node (Some (set_element a' n)) media) st).
Proof.
  intros Hi Hid Hn Hop. unfold Browser.seekTo, bind, try_catch.
  rewrite (self_run _ _ _ Hi). cbv beta iota.
  rewrite (on_node_run _ _ _ _ _ Hi Hn), Hop, Hid. reflexivity.
Qed.

Lemma pause_returns st i :
  registered st i ->
  exists st', Browser.pause i st = Some (Normal tt, st') /\ registered st' i.
Proof.
  intros Hr. pose proof Hr as (media & Hi & Hid).
  unfold Browser.pause, bind, try_catch.
  rewrite (self_run _ _ _ Hi). cbv beta iota.
  destruct (on_node_keeps i node_pause st Hr) as (c & st1 & -> & Hr1 & _).
  destruct c as [[]|e].
  - destruct (browser_onStatus_returns st1 (id media) (VNum MEDIA_STATE)
                (VNum MEDIA_PAUSED)) as (st' & -> & Hk).
    exists st'. split; [reflexivity|]. by apply Hk.
  - destruct (browser_onStatus_returns st1 (id media) (VNum MEDIA_ERROR) e)
      as (st' & -> & Hk).
    exists st'. split; [reflexivity|]. by apply Hk.
Qed.

Lemma seekTo_returns st i (milliseconds : value) :
  registered st i ->
  exists st',
    Browser.seekTo i milliseconds st = Some (Normal tt, st')
    /\ registered st' i.
Proof.
  intros Hr. pose proof Hr as (media & Hi & Hid).
  unfold Browser.seekTo, bind, try_catch.
  rewrite (self_run _ _ _ Hi). cbv beta iota.
  destruct (on_node_keeps i
              (assign_currentTime (div (to_number milliseconds) (of_Z 1000)))
              st Hr) as (c & st1 & -> & Hr1 & _).
  destruct c as [[]|e].
  - by exists st1.
  - destruct (browser_onStatus_returns st1 (id media) (VNum MEDIA_ERROR) e)
      as (st' & -> & Hk).
    exists st'. split; [reflexivity|]. by apply Hk.
Qed.

(** The body of [stop] never throws, so its [catch] never runs. *)
Lemma stop_run st i :
  registered st i ->
  exists st',
    Browser.stop i st = Some (Normal tt, st')
    /\ Browser.stop i st
       = bind (Browser.pause i) (fun _ =>
         bind (Browser.seekTo i (VNum (of_Z 0))) (fun _ =>
         Browser.onStatus i (VNum MEDIA_STATE) (VNum MEDIA_STOPPED))) st.
Proof.
  intros Hr. pose proof Hr as (media & Hi & Hid).
  unfold Browser.stop, bind, try_catch.
  rewrite (self_run _ _ _ Hi). cbv beta iota. rewrite Hid.
  destruct (pause_returns st i Hr) as (st1 & -> & Hr1).
  destruct (seekTo_returns st1 i (VNum (of_Z 0)) Hr1) as (st2 & -> & Hr2).
  destruct (browser_onStatus_returns st2 i (VNum MEDIA_STATE)
              (VNum MEDIA_STOPPED)) as (st' & -> & _).
  by exists st'.
Qed.

Lemma release_run st i media :
  mediaObjects st !! i = Some media ->
  Browser.release i st = Some (Normal tt, stored i (set_node None media) st).
Proof.
  intros Hi. unfold Browser.release, bind, try_catch.
  rewrite (self_run _ _ _ Hi). cbv beta iota.
  by rewrite (update_run _ _ _ _ Hi).
Qed.

(** *** getCurrentPosition *)

Lemma getCurrentPosition_fault st i media success f n e a' :
  mediaObjects st !! i = Some media ->
  node media = Some n ->
  read_currentTime (element n) = (Throw e, a') ->
  Browser.getCurrentPosition i success (Some f) st
  = Some (Normal tt,
          logged [Call f [e]]
            (stored i (set_node (Some (set_element a' n)) media) st)).
Proof.
  intros Hi Hn Hop. unfold Browser.getCurrentPosition, bind, try_catch.
  rewrite (self_run _ _ _ Hi). cbv beta iota.
  rewrite (on_node_run _ _ _ _ _ Hi Hn), Hop. reflexivity.
Qed.

(** *** play after release *)

Lemma play_creates st i media n :
  mediaObjects st !! i = Some media ->
  node media = None ->
  Browser.createNode media st = Some (Normal n, st) ->
  Browser.play i st
  = Some (fst (node_play (element n)),
          stored i (set_node (Some (set_element
                                      (snd (node_play (element n))) n))
                             media) st).
Proof.
  intros Hi Hn Hc. unfold Browser.play, bind, try_catch.
  rewrite (self_run _ _ _ Hi), Hn. cbv beta iota. rewrite Hc.
  rewrite (update_run _ _ _ _ Hi).
  rewrite (on_node_run i (set_node (Some n) media) n);
    [|apply stored_lookup|reflexivity].
  by rewrite stored_stored.
Qed.

(** *** The constructor *)

Lemma browser_constructor_run st uuid (src : value) succ err stat :
  accepts false src = true ->
  exists st' n,
    Browser.new_NSmedia uuid src succ err stat st = Some (Normal uuid, st')
    /\ mediaObjects st' !! uuid
       = Some {| id := uuid; src := src; successCallback := succ;
                 errorCallback := err; statusCallback := stat;
                 _duration := VNum (of_Z (-1));
                 _position := VNum (of_Z (-1)); node := n |}.
Proof.
  intros Hacc. unfold Browser.new_NSmedia, checkArgs. rewrite Hacc.
  set (this := {| id := uuid; src := src; successCallback := succ;
                  errorCallback := err; statusCallback := stat;
                  _duration := VNum (of_Z (-1));
                  _position := VNum (of_Z (-1)); node := None |}).
  unfold bind, try_catch, ret, register. cbv beta iota.
  fold (stored uuid this st).
  rewrite (browser_state _ _ this _ (stored_lookup _ _ _)).
  eval_tests. cbv beta iota.
  set (st1 := logged _ (stored uuid this st)).
  assert (H1 : mediaObjects st1 !! uuid = Some this)
    by apply stored_lookup.
  rewrite (self_run _ _ _ H1).
  destruct (createNode_returns this st1) as (c & ->).
  destruct c as [n|e].
  - rewrite (update_run _ _ _ _ H1). do 2 eexists.
    split; [reflexivity|]. apply stored_lookup.
  - rewrite (browser_error _ _ _ _ H1). do 2 eexists.
    split; [reflexivity|]. exact H1.
Qed.

(** C4, as the code has it.  On a media object of the browser module,
    [pause], [seekTo], [stop] and [release] never let a fault of the
    primitive reach the caller: what the primitive throws in [pause] or in
    [seekTo] (and so in [stop], which is [pause], then [seekTo(0)], then the
    STOPPED status) is delivered as an ERROR status through [onStatus], and
    [release] only drops the handle.  In [getCurrentPosition], what the
    primitive throws goes to the [fail] callback of the call, not through
    [onStatus], and does not reach the caller either. *)
Theorem faults_are_caught st i media :
  mediaObjects st !! i = Some media -> id media = i ->
  (forall n e a',
      node media = Some n -> node_pause (element n) = (Throw e, a') ->
      Browser.reported_as_error i e
        (stored i (set_node (Some (set_element a' n)) media) st)
        (Browser.pause i st))
  /\ (forall milliseconds n e a',
      node media = Some n ->
      assign_currentTime (div (to_number milliseconds) (of_Z 1000))
        (element n) = (Throw e, a') ->
      Browser.reported_as_error i e
        (stored i (set_node (Some (set_element a' n)) media) st)
        (Browser.seekTo i milliseconds st))
  /\ (exists st', Browser.pause i st = Some (Normal tt, st'))
  /\ (forall milliseconds,
      exists st', Browser.seekTo i milliseconds st = Some (Normal tt, st'))
  /\ (exists st',
      Browser.stop i st = Some (Normal tt, st')
      /\ Browser.stop i st
         = bind (Browser.pause i) (fun _ =>
           bind (Browser.seekTo i (VNum (of_Z 0))) (fun _ =>
           Browser.onStatus i (VNum MEDIA_STATE) (VNum MEDIA_STOPPED))) st)
  /\ Browser.release i st
     = Some (Normal tt, stored i (set_node None media) st)
  /\ (forall success f n e a',
      node media = Some n -> read_currentTime (element n) = (Throw e, a') ->
      Browser.getCurrentPosition i success (Some f) st
      = Some (Normal tt,
              logged [Call f [e]]
                (stored i (set_node (Some (set_element a' n)) media) st))).
Proof.
  intros Hi Hid.
  assert (Hr : registered st i) by (by exists media).
  repeat split.
  - by apply pause_fault.
  - destruct (pause_returns st i Hr) as (st' & H' & _). eauto.
  - by apply seekTo_fault.
  - destruct (seekTo_returns st i milliseconds Hr) as (st' & H' & _). eauto.
  - destruct (pause_returns st i Hr) as (st' & H' & _). eauto.
  - intros milliseconds.
    destruct (seekTo_returns st i milliseconds Hr) as (st' & H' & _). eauto.
  - by apply stop_run.
  - by apply release_run.
  - intros success f n e a' Hn Hop. by apply getCurrentPosition_fault.
Qed.

(** C7. When the element reports an error whose [code] is
    [MEDIA_ERR_SRC_NOT_SUPPORTED], the observer of [createNode] sends, as an
    ERROR status, a new object whose [code] is [MEDIA_ERR_ABORTED], which is
    not the unsupported-source code; an error with any other [code] is sent
    as it is. *)
Theorem unsupported_source_is_sent_as_aborted st i media
    (e : Browser.Event) (code : value) :
  mediaObjects st !! i = Some media ->
  get (Browser.target_error e) "code" = Normal code ->
  number_equal MEDIA_ERR_ABORTED MEDIA_ERR_SRC_NOT_SUPPORTED = false ->
  let sent := VObj [("code", VNum MEDIA_ERR_ABORTED)] in
  (strict_equals code MEDIA_ERR_SRC_NOT_SUPPORTED = true ->
     Browser.fire (OnError i) e st
       = Browser.onStatus i (VNum MEDIA_ERROR) sent st
     /\ Browser.fire (OnError i) e st
       = Some (Normal tt, logged (invocation (errorCallback media) [sent]) st)
     /\ get sent "code" = Normal (VNum MEDIA_ERR_ABORTED)
     /\ strict_equals (VNum MEDIA_ERR_ABORTED) MEDIA_ERR_SRC_NOT_SUPPORTED
        = false)
  /\ (strict_equals code MEDIA_ERR_SRC_NOT_SUPPORTED = false ->
     Browser.fire (OnError i) e st
       = Browser.onStatus i (VNum MEDIA_ERROR) (Browser.target_error e) st
     /\ Browser.fire (OnError i) e st
       = Some (Normal tt,
               logged (invocation (errorCallback media)
                         [Browser.target_error e]) st)).
Proof.
  intros Hi Hcode Hne sent.
  unfold Browser.fire, bind, lift. rewrite Hcode. cbv beta iota.
  split; intros ->.
  - split; [reflexivity|]. split; [by apply browser_error|].
    split; [reflexivity|exact Hne].
  - split; [reflexivity|]. by apply browser_error.
Qed.

(** C8. On a media object of the browser module, [release()] removes the
    node and nothing else: the object stays in the registry under its id.
    A [play()] after it makes a node anew with [createNode], attaches it
    to the object and plays it: the call ends as the [play()] of the element
    ends. *)
Theorem release_then_play_makes_a_node st i media n :
  mediaObjects st !! i = Some media ->
  Browser.createNode media st = Some (Normal n, st) ->
  let released := stored i (set_node None media) st in
  let played := snd (node_play (element n)) in
  Browser.release i st = Some (Normal tt, released)
  /\ mediaObjects released !! i = Some (set_node None media)
  /\ Browser.play i released
     = Some (fst (node_play (element n)),
             stored i (set_node (Some (set_element played n)) media) st).
Proof.
  intros Hi Hc released played.
  split; [by apply release_run|]. split; [apply stored_lookup|].
  destruct (createNode_pure _ _ _ _ Hc) as (_ & Hpure).
  rewrite (play_creates released i (set_node None media) n);
    [|apply stored_lookup|reflexivity|apply Hpure].
  unfold released. by rewrite stored_stored.
Qed.

End Methods.

(* ===================================================================== *)
(** ** The cached duration                                                *)
(* ===================================================================== *)

Section Duration.

Context {audio : Type} {prim : AudioPrimitive audio} {codes : NSmediaError}.
Implicit Types (st : State audio) (media : NSmedia audio) (i : string).

(** C6. For a registered id, after [onStatus(id, MEDIA_DURATION, 42)]
    the method [getDuration] of that object returns 42; on an object fresh
    from the constructor it returns -1; and a message of any other type
    leaves its answer as it was.  In both modules. *)
Theorem duration_is_cached_from_minus_one
    st i media uuid (s : string) succ err stat :
  mediaObjects st !! i = Some media ->
  (exists st',
      Browser.onStatus i (VNum MEDIA_DURATION) (VNum (of_Z 42)) st
        = Some (Normal tt, st')
      /\ Browser.getDuration i st' = Some (Normal (VNum (of_Z 42)), st'))
  /\ (exists st',
      Bridge.onStatus i (VNum MEDIA_DURATION) (VNum (of_Z 42)) st
        = Some (Normal tt, st')
      /\ Bridge.getDuration i st' = Some (Normal (VNum (of_Z 42)), st'))
  /\ (exists st',
      Browser.new_NSmedia uuid (VStr s) succ err stat st
        = Some (Normal uuid, st')
      /\ Browser.getDuration uuid st'
          = Some (Normal (VNum (of_Z (-1))), st'))
  /\ (exists st',
      Bridge.new_NSmedia uuid (VStr s) succ err stat st
        = Some (Normal uuid, st')
      /\ Bridge.getDuration uuid st'
          = Some (Normal (VNum (of_Z (-1))), st'))
  /\ (forall (msgType value : JS.value) st',
      strict_equals msgType MEDIA_DURATION = false ->
      (Browser.onStatus i msgType value st = Some (Normal tt, st') ->
       Browser.getDuration i st' = Some (Normal (_duration media), st'))
      /\ (Bridge.onStatus i msgType value st = Some (Normal tt, st') ->
         Bridge.getDuration i st' = Some (Normal (_duration media), st'))).
Proof.
  intros Hi. split; [|split; [|split; [|split]]].
  - eexists. split; [by apply browser_duration|].
    unfold Browser.getDuration, bind.
    by rewrite (self_run i _ _ (stored_lookup i _ st)).
  - eexists. split; [by apply bridge_duration|].
    unfold Bridge.getDuration, bind.
    by rewrite (self_run i _ _ (stored_lookup i _ st)).
  - destruct (browser_constructor_run st uuid (VStr s) succ err stat eq_refl)
      as (st' & n & Hnew & Hlook).
    exists st'. split; [exact Hnew|].
    unfold Browser.getDuration, bind. by rewrite (self_run _ _ _ Hlook).
  - eexists. split.
    + unfold Bridge.new_NSmedia, Bridge.exec, bind, checkArgs, register.
      cbn. reflexivity.
    + unfold Bridge.getDuration, bind, self. cbn.
      by rewrite lookup_insert_eq.
  - intros msgType value st' Hd. split; intros Hrun.
    + destruct (browser_keeps_duration _ _ _ _ _ _ _ Hd Hrun Hi)
        as (media' & Hi' & <-).
      unfold Browser.getDuration, bind. by rewrite (self_run _ _ _ Hi').
    + destruct (bridge_keeps_duration _ _ _ _ _ _ _ Hd Hrun Hi)
        as (media' & Hi' & <-).
      unfold Bridge.getDuration, bind. by rewrite (self_run _ _ _ Hi').
Qed.


End Duration.

(* ===================================================================== *)
(** ** The code at work on the sample page                                *)
(* ===================================================================== *)

Section Samples.

Import Sample.

(** C1, where the code departs from it.  The two dispatchers are not the
    same function: the browser module tests [value === MEDIA_STOPPED], the
    bridge module [value == MEDIA_STOPPED].  On the state message whose
    value is the string ["4"], the first calls the status callback only,
    the second calls the success callback as well. *)
Theorem dispatchers_differ_on_the_string_4 :
  let st : State unit := page None in
  Browser.onStatus "song" (VNum MEDIA_STATE) (VStr "4") st
    = Some (Normal tt, logged [Call on_status [VStr "4"]] st)
  /\ Bridge.onStatus "song" (VNum MEDIA_STATE) (VStr "4") st
    = Some (Normal tt,
            logged [Call on_status [VStr "4"]; Call on_success []] st)
  /\ Browser.onStatus "song" (VNum MEDIA_STATE) (VStr "4") st
     <> Bridge.onStatus "song" (VNum MEDIA_STATE) (VStr "4") st.
Proof.
  intros st.
  assert (Hi : mediaObjects st !! "song" = Some (song None))
    by (vm_compute; reflexivity).
  rewrite (browser_state _ _ _ _ Hi), (bridge_state _ _ _ _ Hi).
  replace (strict_equals (VStr "4") MEDIA_STOPPED) with false
    by reflexivity.
  replace (loose_equals (VStr "4") MEDIA_STOPPED) with true
    by (vm_compute; reflexivity).
  split; [reflexivity|]. split; [reflexivity|]. discriminate.
Qed.

(** On the sample page, whose one object has all three callbacks. *)
Lemma stopped_calls_status_then_success_witness :
  let st : State unit := page None in
  let calls := [Call on_status [VNum MEDIA_STOPPED]; Call on_success []] in
  Browser.onStatus "song" (VNum MEDIA_STATE) (VNum MEDIA_STOPPED) st
    = Some (Normal tt, logged calls st)
  /\ Bridge.onStatus "song" (VNum MEDIA_STATE) (VNum MEDIA_STOPPED) st
    = Some (Normal tt, logged calls st).
Proof.
  apply (stopped_calls_status_then_success (page None) "song" (song None)).
  vm_compute. reflexivity.
Defined.



(** On the sample page. *)
Lemma position_string_is_coerced_witness :
  let st : State unit := page None in
  let after := stored "song" (set_position (VNum twelve_and_a_half)
                                (song None)) st in
  Browser.onStatus "song" (VNum MEDIA_POSITION) (VStr "12.5") st
    = Some (Normal tt, after)
  /\ Bridge.onStatus "song" (VNum MEDIA_POSITION) (VStr "12.5") st
    = Some (Normal tt, after)
  /\ log after = log st.
Proof.
  apply (position_string_is_coerced (page None) "song" (song None)).
  vm_compute. reflexivity.
Defined.


(** On the sample page, for the string ["42"]. *)
Lemma duration_is_not_coerced_witness :
  let st : State unit := page None in
  let after := stored "song" (set_duration (VStr "42") (song None)) st in
  Browser.onStatus "song" (VNum MEDIA_DURATION) (VStr "42") st
    = Some (Normal tt, after)
  /\ Bridge.onStatus "song" (VNum MEDIA_DURATION) (VStr "42") st
    = Some (Normal tt, after)
  /\ Browser.getDuration "song" after = Some (Normal (VStr "42"), after)
  /\ Bridge.getDuration "song" after = Some (Normal (VStr "42"), after)
  /\ (VStr "42" = VStr "42" ->
      Browser.getDuration "song" after
        <> Some (Normal (VNum (of_Z 42)), after)
      /\ Browser.onStatus "song" (VNum MEDIA_POSITION) (VStr "42") st
         = Some (Normal tt,
                 stored "song" (set_position (VNum (of_Z 42)) (song None)) st)
      /\ Bridge.onStatus "song" (VNum MEDIA_POSITION) (VStr "42") st
         = Some (Normal tt,
                 stored "song" (set_position (VNum (of_Z 42)) (song None)) st)).
Proof.
  apply (duration_is_not_coerced (page None) "song" (song None) (VStr "42")).
  vm_compute. reflexivity.
Defined.

(** On the sample page, and for a second object made there. *)
Lemma duration_is_cached_from_minus_one_witness :
  let st : State player := page None in
  (exists st',
      Browser.onStatus "song" (VNum MEDIA_DURATION) (VNum (of_Z 42)) st
        = Some (Normal tt, st')
      /\ Browser.getDuration "song" st'
          = Some (Normal (VNum (of_Z 42)), st'))
  /\ (exists st',
      Bridge.onStatus "song" (VNum MEDIA_DURATION) (VNum (of_Z 42)) st
        = Some (Normal tt, st')
      /\ Bridge.getDuration "song" st' = Some (Normal (VNum (of_Z 42)), st'))
  /\ (exists st',
      Browser.new_NSmedia (prim := sound) (codes := codes)
        "tune" (VStr "tune.mp3") None None None st
        = Some (Normal "tune", st')
      /\ Browser.getDuration "tune" st'
          = Some (Normal (VNum (of_Z (-1))), st'))
  /\ (exists st',
      Bridge.new_NSmedia "tune" (VStr "tune.mp3") None None None st
        = Some (Normal "tune", st')
      /\ Bridge.getDuration "tune" st'
          = Some (Normal (VNum (of_Z (-1))), st'))
  /\ (forall (msgType value : JS.value) st',
      strict_equals msgType MEDIA_DURATION = false ->
      (Browser.onStatus "song" msgType value st = Some (Normal tt, st') ->
       Browser.getDuration "song" st'
       = Some (Normal (VNum (of_Z (-1))), st'))
      /\ (Bridge.onStatus "song" msgType value st = Some (Normal tt, st') ->
         Bridge.getDuration "song" st'
         = Some (Normal (VNum (of_Z (-1))), st'))).
Proof.
  apply (duration_is_cached_from_minus_one (prim := sound) (codes := codes)
           (page None) "song" (song None)).
  vm_compute. reflexivity.
Defined.

(** On the sample page, over the element that throws at every use. *)
Lemma faults_are_caught_witness :
  let st : State unit := page (Some (song_node tt)) in
  Browser.reported_as_error "song" fault st
    (Browser.pause (prim := faulty) "song" st)
  /\ Browser.reported_as_error "song" fault st
    (Browser.seekTo (prim := faulty) "song" (VNum (of_Z 1500)) st)
  /\ Browser.stop (prim := faulty) "song" st
    = Some (Normal tt,
            logged [Call on_error [fault]; Call on_error [fault];
                    Call on_status [VNum MEDIA_STOPPED]; Call on_success []]
                   st)
  /\ Browser.release "song" st = Some (Normal tt, page None)
  /\ Browser.getCurrentPosition (prim := faulty) "song"
       (Some on_position) (Some on_failure) st
     = Some (Normal tt, logged [Call on_failure [fault]] st).
Proof.
  intros st.
  destruct (faults_are_caught (prim := faulty) st "song"
              (song (Some (song_node tt))) eq_refl eq_refl)
    as (Hpause & Hseek & _ & _ & _ & Hrelease & Hpos).
  split; [exact (Hpause (song_node tt) fault tt eq_refl eq_refl)|].
  split; [exact (Hseek (VNum (of_Z 1500)) (song_node tt) fault tt
                   eq_refl eq_refl)|].
  split; [vm_compute; reflexivity|].
  split; [rewrite Hrelease; vm_compute; reflexivity|].
  rewrite (Hpos (Some on_position) on_failure (song_node tt) fault tt
             eq_refl eq_refl).
  vm_compute. reflexivity.
Defined.

(** C4, where the code departs from it.  With an element that throws at
    every use: [play] and [setVolume] let the fault reach the caller, and
    [getCurrentPosition] hands it to its [fail] callback; none of the three
    turns it into an ERROR status. *)
Lemma faults_escape_the_dispatcher :
  let st : State unit := page (Some (song_node tt)) in
  let play := Browser.play (prim := faulty) (codes := codes) "song" st in
  let setVolume :=
    Browser.setVolume (prim := faulty) "song" (VNum (of_Z 1)) st in
  let getCurrentPosition :=
    Browser.getCurrentPosition (prim := faulty) "song"
      (Some on_position) (Some on_failure) st in
  play = Some (Throw fault, st)
  /\ setVolume = Some (Throw fault, st)
  /\ getCurrentPosition
     = Some (Normal tt, logged [Call on_failure [fault]] st)
  /\ ~ Browser.reported_as_error "song" fault st play
  /\ ~ Browser.reported_as_error "song" fault st setVolume
  /\ ~ Browser.reported_as_error "song" fault st getCurrentPosition.
Proof.
  intros st play setVolume getCurrentPosition.
  assert (Hplay : play = Some (Throw fault, st)) by (vm_compute; reflexivity).
  assert (Hvol : setVolume = Some (Throw fault, st))
    by (vm_compute; reflexivity).
  assert (Hpos : getCurrentPosition
                 = Some (Normal tt, logged [Call on_failure [fault]] st))
    by (vm_compute; reflexivity).
  split; [exact Hplay|]. split; [exact Hvol|]. split; [exact Hpos|].
  split; [|split].
  - intros (_ & st' & H). rewrite Hplay in H. discriminate H.
  - intros (_ & st' & H). rewrite Hvol in H. discriminate H.
  - intros (H & _). rewrite Hpos in H.
    apply (f_equal (fun r : option (completion unit * State unit) =>
                      match r with
                      | Some (_, s) => log s
                      | None => []
                      end)) in H.
    vm_compute in H. discriminate H.
Qed.

(** On the sample page, with the codes of [MediaError]: 4 is sent as 1. *)
Lemma unsupported_source_is_sent_as_aborted_witness :
  let st : State unit := page None in
  let e := {| Browser.target_duration := VNum NaN;
              Browser.target_error := VObj [("code", VNum (of_Z 4))] |} in
  let sent := VObj [("code", VNum (of_Z 1))] in
  Browser.fire (codes := codes) (OnError "song") e st
    = Browser.onStatus "song" (VNum MEDIA_ERROR) sent st
  /\ Browser.fire (codes := codes) (OnError "song") e st
    = Some (Normal tt, logged [Call on_error [sent]] st)
  /\ get sent "code" = Normal (VNum (of_Z 1))
  /\ strict_equals (VNum (of_Z 1)) (of_Z 4) = false.
Proof.
  intros st e sent.
  destruct (unsupported_source_is_sent_as_aborted (codes := codes)
              st "song" (song None) e (VNum (of_Z 4))
              eq_refl eq_refl eq_refl) as (Hsame & _).
  exact (Hsame eq_refl).
Defined.

(** On the sample page, over the element that never throws. *)
Lemma release_then_play_makes_a_node_witness :
  let a := {| p_src := VStr "song.mp3"; p_currentTime := of_Z 0;
              p_volume := VNum (of_Z 1); p_paused := true |} in
  let playing := {| p_src := VStr "song.mp3"; p_currentTime := of_Z 0;
                    p_volume := VNum (of_Z 1); p_paused := false |} in
  let st : State player := page (Some (song_node a)) in
  Browser.release "song" st = Some (Normal tt, page None)
  /\ Browser.play (prim := sound) (codes := codes) "song" (page None)
     = Some (Normal tt, page (Some (song_node playing))).
Proof.
  intros a playing st.
  destruct (release_then_play_makes_a_node (prim := sound) (codes := codes)
              st "song" (song (Some (song_node a))) (song_node a)
              eq_refl eq_refl) as (Hrel & _ & Hplay).
  split.
  - rewrite Hrel. vm_compute. reflexivity.
  - etransitivity; [|etransitivity; [exact Hplay|]];
      vm_compute; reflexivity.
Defined.

End Samples.

(* ===================================================================== *)
(** ** Computations that let the page evolve                              *)
(* ===================================================================== *)

Section Steady.

Import Keeps.

Context {audio : Type}.
Implicit Types (st : State audio) (media m : NSmedia audio) (i : string).
Implicit Types (b : bool).

Lemma unfolds_refl b m : unfolds b m m.
Proof. unfold unfolds. destruct b; auto. Qed.

Lemma unfolds_trans b m1 m2 m3 :
  unfolds b m1 m2 -> unfolds b m2 m3 -> unfolds b m1 m3.
Proof.
  intros (Hc1 & Hw1 & Hx1) (Hc2 & Hw2 & Hx2). unfold unfolds.
  split; [congruence|]. split; [auto|]. destruct b; auto.
Qed.

Lemma evolves_refl b st : evolves b st st.
Proof.
  intros j. destruct (mediaObjects st !! j); [apply unfolds_refl|exact I].
Qed.

Lemma evolves_trans b st1 st2 st3 :
  evolves b st1 st2 -> evolves b st2 st3 -> evolves b st1 st3.
Proof.
  intros H12 H23 j. specialize (H12 j). specialize (H23 j).
  destruct (mediaObjects st1 !! j), (mediaObjects st2 !! j),
    (mediaObjects st3 !! j); try tauto.
  by apply unfolds_trans with n0.
Qed.

Lemma evolves_with_log b (f : list event -> list event) st :
  evolves b st (with_log f st).
Proof.
  intros j. cbn.
  destruct (mediaObjects st !! j); [apply unfolds_refl|exact I].
Qed.

Lemma evolves_alter b (f : NSmedia audio -> NSmedia audio) i st :
  (forall m, mediaObjects st !! i = Some m -> unfolds b m (f m)) ->
  evolves b st (with_objects (alter f i) st).
Proof.
  intros Hf j. cbn. destruct (decide (i = j)) as [->|Hne].
  - rewrite lookup_alter_eq.
    destruct (mediaObjects st !! j) as [m|] eqn:Hj; cbn; [|exact I].
    by apply Hf.
  - rewrite lookup_alter_ne by exact Hne.
    destruct (mediaObjects st !! j); [apply unfolds_refl|exact I].
Qed.

Lemma evolves_stored b i m m' st :
  mediaObjects st !! i = Some m -> unfolds b m m' ->
  evolves b st (stored i m' st).
Proof.
  intros Hi Hu j. destruct (decide (i = j)) as [->|Hne].
  - by rewrite stored_lookup, Hi.
  - rewrite stored_lookup_ne by exact Hne.
    destruct (mediaObjects st !! j); [apply unfolds_refl|exact I].
Qed.

(** *** The combinators *)

Lemma steady_ret b {R} (r : R) : steady b (ret (audio := audio) r).
Proof. intros st c st' [= <- <-]. apply evolves_refl. Qed.

Lemma steady_throw b {R} e : steady b (throw (audio := audio) (R := R) e).
Proof. intros st c st' [= <- <-]. apply evolves_refl. Qed.

Lemma steady_lift b {R} (c : completion R) : steady b (lift (audio := audio) c).
Proof. intros st c' st' [= <- <-]. apply evolves_refl. Qed.

Lemma steady_bind b {R S} (m : M audio R) (k : R -> M audio S) :
  steady b m -> (forall r, steady b (k r)) -> steady b (bind m k).
Proof.
  intros Hm Hk st c st'. unfold bind.
  destruct (m st) as [[[r|e] s1]|] eqn:Hrun; [| |discriminate].
  - intros Hrest. apply evolves_trans with s1.
    + by apply (Hm _ _ _ Hrun).
    + by apply (Hk r _ _ _ Hrest).
  - intros [= <- <-]. by apply (Hm _ _ _ Hrun).
Qed.

Lemma steady_try_catch b {R} (body : M audio R) (handle : value -> M audio R) :
  steady b body -> (forall e, steady b (handle e)) ->
  steady b (try_catch body handle).
Proof.
  intros Hm Hk st c st'. unfold try_catch.
  destruct (body st) as [[[r|e] s1]|] eqn:Hrun; [| |discriminate].
  - intros [= <- <-]. by apply (Hm _ _ _ Hrun).
  - intros Hrest. apply evolves_trans with s1.
    + by apply (Hm _ _ _ Hrun).
    + by apply (Hk e _ _ _ Hrest).
Qed.

Lemma steady_emit b ev : steady b (emit (audio := audio) ev).
Proof. intros st c st' [= <- <-]. apply evolves_with_log. Qed.

Lemma steady_resolve b i : steady b (resolve (audio := audio) i).
Proof. intros st c st' [= <- <-]. apply evolves_refl. Qed.

Lemma steady_self b i : steady b (self (audio := audio) i).
Proof.
  intros st c st'. unfold self.
  destruct (mediaObjects st !! i); [|discriminate].
  intros [= <- <-]. apply evolves_refl.
Qed.

Lemma steady_call b f args : steady b (call (audio := audio) f args).
Proof. destruct f; [apply steady_emit|apply steady_throw]. Qed.

Lemma steady_call_if_set b f args :
  steady b (call_if_set (audio := audio) f args).
Proof. destruct f; [apply steady_emit|apply steady_ret]. Qed.

Lemma steady_report b text operand :
  steady b (report (audio := audio) text operand).
Proof.
  intros st c st'. unfold report.
  destruct (console_error st); [apply steady_emit|apply steady_ret].
Qed.

Lemma steady_update b i (f : NSmedia audio -> NSmedia audio) :
  (forall m, unfolds b m (f m)) -> steady b (update i f).
Proof.
  intros Hf st c st' [= <- <-]. apply evolves_alter. auto.
Qed.

Lemma steady_assign b i (media : holder audio) property
    (set : value -> NSmedia audio -> NSmedia audio) v :
  (forall m, unfolds b m (set v m)) -> steady b (assign i media property set v).
Proof.
  intros Hset. destruct media; [by apply steady_update|apply steady_emit].
Qed.

(** *** The assignments of the code *)

Lemma unfolds_set_duration b v m : unfolds b m (set_duration v m).
Proof. unfold unfolds. destruct b; auto. Qed.

Lemma unfolds_set_number b n m : unfolds b m (set_position (VNum n) m).
Proof.
  unfold unfolds. split; [reflexivity|]. split; [auto|].
  destruct b; [auto|]. intros _. by exists n.
Qed.

Lemma unfolds_set_position v m : unfolds true m (set_position v m).
Proof. unfold unfolds. auto. Qed.

Lemma unfolds_delete_node b m : unfolds b m (set_node None m).
Proof.
  unfold unfolds. split; [reflexivity|]. split.
  - intros _ n. discriminate.
  - destruct b; auto.
Qed.

Lemma unfolds_set_element a n m :
  node m = Some n -> unfolds false m (set_node (Some (set_element a n)) m).
Proof.
  intros Hn. unfold unfolds. split; [reflexivity|]. split; [|auto].
  intros Hw n' [= <-]. exact (Hw n Hn).
Qed.

Lemma unfolds_attach n m :
  observers_of (id m) n -> unfolds false m (set_node (Some n) m).
Proof.
  intros Ho. unfold unfolds. split; [reflexivity|]. split; [|auto].
  by intros _ n' [= <-].
Qed.

(** *** The dispatchers *)

Lemma steady_browser_onStatus b i (msgType value : JS.value) :
  steady b (Browser.onStatus (audio := audio) i msgType value).
Proof.
  unfold Browser.onStatus. apply steady_bind; [apply steady_resolve|].
  intros [media|]; [|apply steady_report].
  destruct (strict_equals msgType MEDIA_STATE).
  { apply steady_bind; [apply steady_call_if_set|]. intros _.
    destruct (strict_equals value MEDIA_STOPPED);
      [apply steady_call_if_set|apply steady_ret]. }
  destruct (strict_equals msgType MEDIA_DURATION).
  { apply steady_assign. intros m. apply unfolds_set_duration. }
  destruct (strict_equals msgType MEDIA_ERROR);
    [apply steady_call_if_set|].
  destruct (strict_equals msgType MEDIA_POSITION); [|apply steady_report].
  apply steady_assign. intros m. apply unfolds_set_number.
Qed.

Lemma steady_bridge_onStatus b i (msgType value : JS.value) :
  steady b (Bridge.onStatus (audio := audio) i msgType value).
Proof.
  unfold Bridge.onStatus. apply steady_bind; [apply steady_resolve|].
  intros [media|]; [|apply steady_report].
  destruct (strict_equals msgType MEDIA_STATE).
  { apply steady_bind; [apply steady_call_if_set|]. intros _.
    destruct (loose_equals value MEDIA_STOPPED);
      [apply steady_call_if_set|apply steady_ret]. }
  destruct (strict_equals msgType MEDIA_DURATION).
  { apply steady_assign. intros m. apply unfolds_set_duration. }
  destruct (strict_equals msgType MEDIA_ERROR);
    [apply steady_call_if_set|].
  destruct (strict_equals msgType MEDIA_POSITION); [|apply steady_report].
  apply steady_assign. intros m. apply unfolds_set_number.
Qed.

End Steady.

Section SteadyBrowser.

Import Keeps.

Context {audio : Type} {prim : AudioPrimitive audio} {codes : NSmediaError}.
Implicit Types (st : State audio) (media m : NSmedia audio) (i : string).

Lemma steady_from_all b {R} (c : M audio R) st :
  steady b c -> steady_from b st c.
Proof. intros H r st'. apply H. Qed.

Lemma steady_from_bind b {R S} st (c : M audio R) (k : R -> M audio S) :
  steady_from b st c -> (forall r, steady b (k r)) ->
  steady_from b st (bind c k).
Proof.
  intros Hm Hk r st'. unfold bind.
  destruct (c st) as [[[x|e] s1]|] eqn:Hrun; [| |discriminate].
  - intros Hrest. apply evolves_trans with s1.
    + by apply Hm with (Normal x).
    + by apply (Hk x _ _ _ Hrest).
  - intros [= <- <-]. by apply Hm with (Throw e).
Qed.

Lemma steady_from_try_catch b {R} st (body : M audio R) handle :
  steady_from b st body -> (forall e, steady b (handle e)) ->
  steady_from b st (try_catch body handle).
Proof.
  intros Hm Hk r st'. unfold try_catch.
  destruct (body st) as [[[x|e] s1]|] eqn:Hrun; [| |discriminate].
  - intros [= <- <-]. by apply Hm with (Normal x).
  - intros Hrest. apply evolves_trans with s1.
    + by apply Hm with (Throw e).
    + by apply (Hk e _ _ _ Hrest).
Qed.

(** What runs after [self] runs with the receiver in hand. *)
Lemma steady_after_self b {R} i (k : NSmedia audio -> M audio R) :
  (forall st media,
      mediaObjects st !! i = Some media -> steady_from b st (k media)) ->
  steady b (bind (self i) k).
Proof.
  intros Hk st c st'. unfold bind, self.
  destruct (mediaObjects st !! i) as [media|] eqn:Hi; [|discriminate].
  by apply Hk.
Qed.

Lemma createNode_observers media st n st' :
  Browser.createNode media st = Some (Normal n, st') ->
  observers_of (id media) n.
Proof.
  unfold Browser.createNode, bind, lift, ret. cbn.
  destruct new_Audio as [a|e]; [|discriminate].
  destruct (to_boolean (src media)).
  - destruct (assign_src (src media) a) as [[[]|e] a']; [|discriminate].
    intros [= <- <-]. by repeat split.
  - intros [= <- <-]. by repeat split.
Qed.

(** [this.node = createNode(this)] *)
Lemma steady_attach i media st :
  mediaObjects st !! i = Some media ->
  steady_from false st
    (bind (Browser.createNode media)
          (fun n => update i (set_node (Some n)))).
Proof.
  intros Hi c st'. unfold bind.
  destruct (createNode_returns media st) as (r & Hr). rewrite Hr.
  destruct r as [n|e].
  - rewrite (update_run _ _ _ _ Hi). intros [= <- <-].
    apply (evolves_stored _ _ _ _ _ Hi), unfolds_attach.
    by apply (createNode_observers _ _ _ _ Hr).
  - intros [= <- <-]. apply evolves_refl.
Qed.

Lemma steady_on_node {R} i (op : audio -> completion R * audio) :
  steady (audio := audio) false (Browser.on_node i op).
Proof.
  intros st c st' Hrun.
  destruct (mediaObjects st !! i) as [media|] eqn:Hi.
  - destruct (node media) as [n|] eqn:Hn.
    + rewrite (on_node_run _ _ _ _ _ Hi Hn) in Hrun.
      injection Hrun as <- <-.
      by apply (evolves_stored _ _ _ _ _ Hi), unfolds_set_element.
    + rewrite (on_node_absent _ _ _ _ Hi Hn) in Hrun.
      injection Hrun as <- <-. apply evolves_refl.
  - unfold Browser.on_node, bind, self in Hrun. rewrite Hi in Hrun.
    discriminate Hrun.
Qed.

Lemma steady_play i : steady (audio := audio) false (Browser.play i).
Proof.
  unfold Browser.play. apply steady_after_self. intros st media Hi.
  apply steady_from_bind; [|intros _; apply steady_on_node].
  destruct (node media).
  - apply steady_from_all, steady_ret.
  - apply steady_from_try_catch; [by apply steady_attach|].
    intros e. apply steady_browser_onStatus.
Qed.

Lemma steady_seekTo i (milliseconds : value) :
  steady (audio := audio) false (Browser.seekTo i milliseconds).
Proof.
  unfold Browser.seekTo. apply steady_bind; [apply steady_self|].
  intros media. apply steady_try_catch; [apply steady_on_node|].
  intros e. apply steady_browser_onStatus.
Qed.

Lemma steady_pause i : steady (audio := audio) false (Browser.pause i).
Proof.
  unfold Browser.pause. apply steady_bind; [apply steady_self|].
  intros media. apply steady_try_catch.
  - apply steady_bind; [apply steady_on_node|].
    intros _. apply steady_browser_onStatus.
  - intros e. apply steady_browser_onStatus.
Qed.

Lemma steady_stop i : steady (audio := audio) false (Browser.stop i).
Proof.
  unfold Browser.stop. apply steady_bind; [apply steady_self|].
  intros media. apply steady_try_catch.
  - apply steady_bind; [apply steady_pause|]. intros _.
    apply steady_bind; [apply steady_seekTo|]. intros _.
    apply steady_browser_onStatus.
  - intros e. apply steady_browser_onStatus.
Qed.

Lemma steady_getDuration i : steady (audio := audio) false (Browser.getDuration i).
Proof.
  unfold Browser.getDuration. apply steady_bind; [apply steady_self|].
  intros media. apply steady_ret.
Qed.

Lemma steady_getCurrentPosition i success fail :
  steady (audio := audio) false (Browser.getCurrentPosition i success fail).
Proof.
  unfold Browser.getCurrentPosition.
  apply steady_bind; [apply steady_self|].
  intros media. apply steady_try_catch.
  - apply steady_bind; [apply steady_on_node|]. intros p.
    apply steady_bind; [apply steady_browser_onStatus|]. intros _.
    apply steady_call.
  - intros e. apply steady_call.
Qed.

Lemma steady_startRecord i : steady (audio := audio) false (Browser.startRecord i).
Proof.
  unfold Browser.startRecord. apply steady_bind; [apply steady_self|].
  intros media. apply steady_browser_onStatus.
Qed.

Lemma steady_stopRecord i : steady (audio := audio) false (Browser.stopRecord i).
Proof.
  unfold Browser.stopRecord. apply steady_bind; [apply steady_self|].
  intros media. apply steady_browser_onStatus.
Qed.

Lemma steady_release i : steady (audio := audio) false (Browser.release i).
Proof.
  unfold Browser.release. apply steady_bind; [apply steady_self|].
  intros media. apply steady_try_catch.
  - apply steady_update. intros m. apply unfolds_delete_node.
  - intros e. apply steady_browser_onStatus.
Qed.

Lemma steady_setVolume i (volume : value) :
  steady (audio := audio) false (Browser.setVolume i volume).
Proof. apply steady_on_node. Qed.

Lemma steady_fire h (e : Browser.Event) : steady (audio := audio) false (Browser.fire h e).
Proof.
  destruct h; cbn [Browser.fire]; try apply steady_browser_onStatus.
  apply steady_bind; [apply steady_lift|].
  intros code. apply steady_browser_onStatus.
Qed.

(** What follows the registration, in the constructor. *)
Lemma steady_after_registration uuid :
  steady (audio := audio) false
    (bind (Browser.onStatus uuid (VNum MEDIA_STATE) (VNum MEDIA_STARTING))
       (fun _ =>
        bind (try_catch
                (bind (self uuid) (fun this =>
                 bind (Browser.createNode this) (fun n =>
                 update uuid (set_node (Some n)))))
                (fun err =>
                   Browser.onStatus uuid (VNum MEDIA_ERROR) Browser.aborted))
          (fun _ => ret uuid))).
Proof.
  apply steady_bind; [apply steady_browser_onStatus|]. intros _.
  apply steady_bind; [|intros _; apply steady_ret].
  apply steady_try_catch; [|intros e; apply steady_browser_onStatus].
  apply steady_after_self. intros st media Hi. by apply steady_attach.
Qed.

Lemma healthy_evolves st st' :
  healthy st -> evolves false st st' -> healthy st'.
Proof.
  intros Hh He i m' Hi'. specialize (He i). rewrite Hi' in He.
  destruct (mediaObjects st !! i) as [m|] eqn:Hi; [|contradiction].
  destruct (Hh i m Hi) as (Hid & Hnum & Hw).
  destruct He as (Hc & Hw' & Hn').
  unfold core in Hc. injection Hc as Hid' _ _ _ _.
  split; [congruence|]. split; auto.
Qed.

Lemma healthy_constructor st uuid (src : value) s e t c st' :
  healthy st ->
  Browser.new_NSmedia uuid src s e t st = Some (c, st') ->
  healthy st'.
Proof.
  intros Hh. unfold Browser.new_NSmedia.
  destruct (accepts false src) eqn:Hacc.
  - unfold checkArgs. rewrite Hacc.
    unfold bind at 1 2, ret at 1, register. cbv beta iota.
    intros Hrun. apply steady_after_registration in Hrun.
    refine (healthy_evolves _ _ _ Hrun).
    intros i m. cbn. destruct (decide (uuid = i)) as [->|Hne].
    + rewrite lookup_insert_eq. intros [= <-]. cbn.
      split; [reflexivity|]. split; [by eexists|]. intros n. discriminate.
    + rewrite lookup_insert_ne by exact Hne. apply Hh.
  - unfold bind at 1.
    destruct (checkArgs false src st) as [[c0 s0]|] eqn:Hcheck;
      [|discriminate].
    destruct (checkArgs_refused _ _ _ _ _ Hacc Hcheck) as ((err & ->) & Hsame).
    intros [= <- <-]. intros i m. rewrite Hsame. apply Hh.
Qed.

End SteadyBrowser.

(* ===================================================================== *)
(** ** More of the dispatcher                                             *)
(* ===================================================================== *)

Section MoreDispatcher.

Import Keeps.

Context {audio : Type}.
Implicit Types (st : State audio) (media m : NSmedia audio) (i : string).







(** X2. For a registered id, [onStatus(id, MEDIA_ERROR, value)] calls the
    error callback with that very value, if one is set, and does nothing
    else: no other callback, no change to any object.  In both modules. *)
Theorem error_message_reaches_the_error_callback st i media (value : JS.value) :
  mediaObjects st !! i = Some media ->
  let after := logged (invocation (errorCallback media) [value]) st in
  Browser.onStatus i (VNum MEDIA_ERROR) value st = Some (Normal tt, after)
  /\ Bridge.onStatus i (VNum MEDIA_ERROR) value st = Some (Normal tt, after)
  /\ mediaObjects after = mediaObjects st.
Proof.
  intros Hi after. split; [by apply browser_error|].
  split; [by apply bridge_error|reflexivity].
Qed.



End MoreDispatcher.

(* ===================================================================== *)
(** ** More of the direct-backed module                                   *)
(* ===================================================================== *)

Section MoreBrowser.

Import Keeps.

Context {audio : Type} {prim : AudioPrimitive audio} {codes : NSmediaError}.
Implicit Types (st : State audio) (media m : NSmedia audio) (i : string).

(** *** Helpers: the methods when the element cooperates *)

Lemma pause_ok st i media n a1 :
  mediaObjects st !! i = Some media -> id media = i ->
  node media = Some n ->
  node_pause (element n) = (Normal tt, a1) ->
  Browser.pause i st
  = Some (Normal tt,
          logged (invocation (statusCallback media) [VNum MEDIA_PAUSED])
            (stored i (set_node (Some (set_element a1 n)) media) st)).
Proof.
  intros Hi Hid Hn Hop. unfold Browser.pause, bind, try_catch.
  rewrite (self_run _ _ _ Hi). cbv beta iota.
  rewrite (on_node_run _ _ _ _ _ Hi Hn), Hop, Hid. cbn [fst snd].
  rewrite (browser_state _ _ _ _ (stored_lookup _ _ _)).
  eval_tests. cbv beta iota. cbn [statusCallback set_node].
  by rewrite app_nil_r.
Qed.

Lemma seekTo_ok st i media (milliseconds : value) n a1 :
  mediaObjects st !! i = Some media ->
  node media = Some n ->
  assign_currentTime (div (to_number milliseconds) (of_Z 1000)) (element n)
    = (Normal tt, a1) ->
  Browser.seekTo i milliseconds st
  = Some (Normal tt, stored i (set_node (Some (set_element a1 n)) media) st).
Proof.
  intros Hi Hn Hop. unfold Browser.seekTo, bind, try_catch.
  rewrite (self_run _ _ _ Hi). cbv beta iota.
  by rewrite (on_node_run _ _ _ _ _ Hi Hn), Hop.
Qed.

(** What [evolves] says of one object. *)
Lemma evolves_lookup b st st' i m :
  evolves b st st' -> mediaObjects st !! i = Some m ->
  exists m', mediaObjects st' !! i = Some m' /\ unfolds b m m'.
Proof.
  intros He Hi. specialize (He i). rewrite Hi in He.
  destruct (mediaObjects st' !! i) as [m'|]; [eauto|contradiction].
Qed.

(** X5. The constructor of the browser module, given a source it accepts,
    always returns the new object, registered under its id with the values
    passed, a duration and a position of -1.  It first tells the status
    callback [MEDIA_STARTING]; then, if [createNode] succeeds, the object
    has the node so made, whose five observers report to this object; if
    [createNode] throws, the error callback gets
    [{code: MEDIA_ERR_ABORTED}] and the object has no node. *)
Theorem constructor_registers_and_announces
    st uuid (src : value) succ err stat r :
  accepts false src = true ->
  let this :=
    {| id := uuid; src := src; successCallback := succ;
       errorCallback := err; statusCallback := stat;
       _duration := VNum (of_Z (-1)); _position := VNum (of_Z (-1));
       node := None |} in
  Browser.createNode this st = Some (r, st) ->
  let made := match r with Normal n => Some n | Throw _ => None end in
  let told :=
    (invocation stat [VNum MEDIA_STARTING]
     ++ match r with
        | Normal _ => []
        | Throw _ => invocation err [Browser.aborted]
        end)%list in
  Browser.new_NSmedia uuid src succ err stat st
    = Some (Normal uuid, logged told (stored uuid (set_node made this) st))
  /\ (forall n, r = Normal n -> observers_of uuid n).
Proof.
  intros Hacc this Hc made told. split.
  - unfold Browser.new_NSmedia, checkArgs. rewrite Hacc. fold this.
    unfold bind, try_catch, ret, register. cbv beta iota.
    fold (stored uuid this st).
    rewrite (browser_state _ _ this _ (stored_lookup _ _ _)).
    eval_tests. cbv beta iota.
    set (st1 := logged _ (stored uuid this st)).
    assert (H1 : mediaObjects st1 !! uuid = Some this)
      by apply stored_lookup.
    rewrite (self_run _ _ _ H1).
    destruct (createNode_pure _ _ _ _ Hc) as (_ & Hpure).
    rewrite (Hpure None st1 : Browser.createNode this st1 = _).
    unfold told, made. destruct r as [n|e].
    + rewrite (update_run _ _ _ _ H1). unfold st1.
      rewrite stored_logged, stored_stored. reflexivity.
    + rewrite (browser_error _ _ _ _ H1). unfold st1.
      rewrite logged_app. cbn [statusCallback errorCallback this].
      rewrite app_nil_r. reflexivity.
  - intros n ->. exact (createNode_observers _ _ _ _ Hc).
Qed.

(** X6. When the element of a registered object announces a change of
    duration, the object caches the new duration if it is truthy, and -1
    otherwise: so for a duration of 0, of NaN, or a missing one.  Nothing
    is called. *)
Theorem durationchange_caches_the_duration_or_minus_one
    st i media (e : Browser.Event) :
  mediaObjects st !! i = Some media ->
  let d := Browser.target_duration e in
  (to_boolean d = true ->
     Browser.fire (OnDurationChange i) e st
     = Some (Normal tt, stored i (set_duration d media) st))
  /\ (to_boolean d = false ->
     Browser.fire (OnDurationChange i) e st
     = Some (Normal tt,
             stored i (set_duration (VNum (of_Z (-1))) media) st))
  /\ (forall sign, d = VNum (S754_zero sign) \/ d = VNum NaN
                  \/ d = VUndefined ->
     Browser.fire (OnDurationChange i) e st
     = Some (Normal tt,
             stored i (set_duration (VNum (of_Z (-1))) media) st)).
Proof.
  intros Hi d. unfold Browser.fire. fold d.
  split; [|split].
  - intros ->. by apply browser_duration.
  - intros ->. by apply browser_duration.
  - intros sign [ -> | [ -> | -> ] ]; by apply browser_duration.
Qed.

(** X7. [stop] on a registered object always returns, and always ends by
    telling the status callback [MEDIA_STOPPED] and calling the success
    callback (each if set), whatever the element did: also when pausing or
    seeking failed, and when the object has no node. *)
Theorem stop_always_reports_stopped st i media :
  mediaObjects st !! i = Some media -> id media = i ->
  exists st2,
    Browser.stop i st
    = Some (Normal tt,
            logged (invocation (statusCallback media) [VNum MEDIA_STOPPED]
                    ++ invocation (successCallback media) [])%list st2).
Proof.
  intros Hi Hid.
  assert (Hr : registered st i) by (by exists media).
  destruct (stop_run st i Hr) as (st' & _ & ->). unfold bind.
  destruct (pause_returns st i Hr) as (st1 & Hp & Hr1). rewrite Hp.
  destruct (seekTo_returns st1 i (VNum (of_Z 0)) Hr1) as (st2 & Hs & Hr2).
  rewrite Hs.
  pose proof (evolves_trans _ _ _ _ (steady_pause i _ _ _ Hp)
                (steady_seekTo i _ _ _ _ Hs)) as He.
  destruct (evolves_lookup _ _ _ _ _ He Hi) as (m2 & Hi2 & Hc & _).
  unfold core in Hc. injection Hc as _ _ Hsucc _ Hstat.
  exists st2. rewrite (browser_state _ _ _ _ Hi2).
  eval_tests. cbv beta iota. by rewrite Hsucc, Hstat.
Qed.

(** X8. When the element of a registered object lets itself be paused and
    rewound, [pause] tells the status callback [MEDIA_PAUSED] and nothing
    else, and [stop] tells it [MEDIA_PAUSED], sets the time of the element
    to 0, tells it [MEDIA_STOPPED] and calls the success callback, in that
    order; the error callback is not called. *)
Theorem stop_pauses_rewinds_and_reports st i media n a1 a2 :
  mediaObjects st !! i = Some media -> id media = i ->
  node media = Some n ->
  node_pause (element n) = (Normal tt, a1) ->
  assign_currentTime (of_Z 0) a1 = (Normal tt, a2) ->
  Browser.pause i st
  = Some (Normal tt,
          logged (invocation (statusCallback media) [VNum MEDIA_PAUSED])
            (stored i (set_node (Some (set_element a1 n)) media) st))
  /\ Browser.stop i st
  = Some (Normal tt,
          logged (invocation (statusCallback media) [VNum MEDIA_PAUSED]
                  ++ invocation (statusCallback media) [VNum MEDIA_STOPPED]
                  ++ invocation (successCallback media) [])%list
            (stored i (set_node (Some (set_element a2 n)) media) st)).
Proof.
  intros Hi Hid Hn Hp Hs. split; [by apply pause_ok|].
  assert (Hr : registered st i) by (by exists media).
  destruct (stop_run st i Hr) as (st' & _ & ->). unfold bind.
  rewrite (pause_ok _ _ _ _ _ Hi Hid Hn Hp).
  set (m1 := set_node (Some (set_element a1 n)) media).
  rewrite (seekTo_ok _ i m1 (VNum (of_Z 0)) (set_element a1 n) a2);
    [|apply stored_lookup|reflexivity|exact Hs].
  rewrite (browser_state _ _ _ _ (stored_lookup _ _ _)).
  eval_tests. cbv beta iota.
  rewrite stored_logged, stored_stored, logged_app. reflexivity.
Qed.

(** X9. [getCurrentPosition] on a registered object whose element gives
    its time [p]: the object caches [p] as its position and the [success]
    function is called with [p]; no status, no error is sent.  If
    [success] is not a function, [fail] is called with the [TypeError]
    instead; and if [fail] is not a function either, the [TypeError]
    reaches the caller.  The position is cached in all three cases. *)
Theorem getCurrentPosition_caches_and_answers st i media n p a' :
  mediaObjects st !! i = Some media -> id media = i ->
  node media = Some n ->
  read_currentTime (element n) = (Normal p, a') ->
  let cached :=
    stored i (set_position (VNum p)
                (set_node (Some (set_element a' n)) media)) st in
  let error := TypeError "not a function" in
  (forall f fail,
      Browser.getCurrentPosition i (Some f) fail st
      = Some (Normal tt, logged [Call f [VNum p]] cached))
  /\ (forall g,
      Browser.getCurrentPosition i None (Some g) st
      = Some (Normal tt, logged [Call g [error]] cached))
  /\ Browser.getCurrentPosition i None None st = Some (Throw error, cached).
Proof.
  intros Hi Hid Hn Hop cached error.
  assert (Hrun : forall success fail,
    Browser.getCurrentPosition i success fail st
    = try_catch (call success [VNum p]) (fun err => call fail [err]) cached).
  { intros success fail. unfold Browser.getCurrentPosition, bind, try_catch.
    rewrite (self_run _ _ _ Hi). cbv beta iota.
    rewrite (on_node_run _ _ _ _ _ Hi Hn), Hop, Hid. cbn [fst snd].
    rewrite (browser_position _ _ _ _ (stored_lookup _ _ _)).
    by rewrite stored_stored. }
  split; [|split]; intros; by rewrite Hrun.
Qed.

(** X10. On a registered object that has no node (after [release], or
    when the element could not be made), every use of the node meets a
    [TypeError]: [pause] and [seekTo] hand it to the error callback and
    return, [getCurrentPosition] hands it to its [fail] function and
    returns, [setVolume] throws it to the caller.  None of them changes
    the object. *)
Theorem methods_without_a_node st i media :
  mediaObjects st !! i = Some media -> id media = i ->
  node media = None ->
  let error := TypeError "this.node is undefined" in
  let told := logged (invocation (errorCallback media) [error]) st in
  Browser.pause i st = Some (Normal tt, told)
  /\ (forall milliseconds,
      Browser.seekTo i milliseconds st = Some (Normal tt, told))
  /\ (forall success g,
      Browser.getCurrentPosition i success (Some g) st
      = Some (Normal tt, logged [Call g [error]] st))
  /\ (forall volume,
      Browser.setVolume i volume st = Some (Throw error, st)).
Proof.
  intros Hi Hid Hn error told. repeat split.
  - unfold Browser.pause, bind, try_catch.
    rewrite (self_run _ _ _ Hi). cbv beta iota.
    rewrite (on_node_absent _ _ _ _ Hi Hn), Hid.
    by apply browser_error.
  - intros milliseconds. unfold Browser.seekTo, bind, try_catch.
    rewrite (self_run _ _ _ Hi). cbv beta iota.
    rewrite (on_node_absent _ _ _ _ Hi Hn), Hid.
    by apply browser_error.
  - intros success g. unfold Browser.getCurrentPosition, bind, try_catch.
    rewrite (self_run _ _ _ Hi). cbv beta iota.
    by rewrite (on_node_absent _ _ _ _ Hi Hn).
  - intros volume. by apply on_node_absent with media.
Qed.

(** X11. [play] on a registered object that has no node, when
    [createNode] throws: the error callback gets
    [{code: MEDIA_ERR_ABORTED}], the object still has no node, and the call
    then throws a [TypeError] to the caller, for [this.node] is
    [undefined]. *)
Theorem play_without_an_element_throws st i media e :
  mediaObjects st !! i = Some media -> id media = i ->
  node media = None ->
  Browser.createNode media st = Some (Throw e, st) ->
  Browser.play i st
  = Some (Throw (TypeError "this.node is undefined"),
          logged (invocation (errorCallback media) [Browser.aborted]) st).
Proof.
  intros Hi Hid Hn Hc. unfold Browser.play, bind, try_catch.
  rewrite (self_run _ _ _ Hi), Hn. cbv beta iota. rewrite Hc, Hid.
  rewrite (browser_error _ _ _ _ Hi). cbv beta iota.
  by rewrite (on_node_absent i media node_play (logged _ st) Hi Hn).
Qed.

(** X12. [release] on a registered object returns and removes the node
    only: a second [release] changes nothing more, and [getDuration] after
    it still returns the cached duration. *)
Theorem release_is_idempotent st i media :
  mediaObjects st !! i = Some media ->
  let released := stored i (set_node None media) st in
  bind (Browser.release i) (fun _ => Browser.release i) st
    = Some (Normal tt, released)
  /\ bind (Browser.release i) (fun _ => Browser.getDuration i) st
    = Some (Normal (_duration media), released)
  /\ log released = log st.
Proof.
  intros Hi released. unfold bind at 1 2.
  rewrite (release_run _ _ _ Hi).
  rewrite (release_run _ _ _ (stored_lookup _ _ _)).
  unfold Browser.getDuration, bind.
  rewrite (self_run _ _ _ (stored_lookup _ _ _)).
  rewrite stored_stored. by repeat split.
Qed.

(** X13. Recording is not there: on a registered object, [startRecord]
    and [stopRecord] both hand the string ["Not supported"] to the error
    callback, if one is set, and do nothing else. *)
Theorem recording_is_not_supported st i media :
  mediaObjects st !! i = Some media -> id media = i ->
  let told :=
    logged (invocation (errorCallback media) [VStr "Not supported"]) st in
  Browser.startRecord i st = Some (Normal tt, told)
  /\ Browser.stopRecord i st = Some (Normal tt, told)
  /\ mediaObjects told = mediaObjects st.
Proof.
  intros Hi Hid told.
  unfold Browser.startRecord, Browser.stopRecord, bind.
  rewrite (self_run _ _ _ Hi), Hid. cbv beta iota.
  rewrite (browser_error _ _ _ _ Hi). by repeat split.
Qed.


(** *** Pages over time *)

Lemma steady_void b {R} (c : M audio R) :
  steady b c -> steady b (Page.void c).
Proof.
  intros Hc. unfold Page.void. apply steady_bind; [exact Hc|].
  intros r. apply steady_ret.
Qed.

Lemma steady_perform (c : Page.call) :
  (forall uuid src s e t, c <> Page.New uuid src s e t) ->
  steady false (Page.perform c).
Proof.
  intros Hnew. destruct c as [u sr s e t| | | | | | | | | | | |];
    cbn [Page.perform].
  - by destruct (Hnew u sr s e t).
  - apply steady_play.
  - apply steady_stop.
  - apply steady_seekTo.
  - apply steady_pause.
  - apply steady_void, steady_getDuration.
  - apply steady_getCurrentPosition.
  - apply steady_startRecord.
  - apply steady_stopRecord.
  - apply steady_release.
  - apply steady_setVolume.
  - apply steady_fire.
  - apply steady_browser_onStatus.
Qed.

(** X15. What the constructor sets stays: no method of the browser
    module, no observer and no call of [onStatus], whether it returns or
    throws, registers or removes an object, or changes the id, the source
    or a callback of one. *)
Theorem only_the_constructor_sets_the_core st (c : Page.call) r st' :
  (forall uuid src s e t, c <> Page.New uuid src s e t) ->
  Page.perform c st = Some (r, st') ->
  forall j,
    match mediaObjects st !! j, mediaObjects st' !! j with
    | Some m, Some m' =>
        id m' = id m /\ src m' = src m
        /\ successCallback m' = successCallback m
        /\ errorCallback m' = errorCallback m
        /\ statusCallback m' = statusCallback m
    | None, None => True
    | _, _ => False
    end.
Proof.
  intros Hnew Hrun j.
  pose proof (steady_perform c Hnew _ _ _ Hrun j) as He.
  destruct (mediaObjects st !! j), (mediaObjects st' !! j); try exact He.
  destruct He as (Hc & _). unfold core in Hc.
  injection Hc as -> -> -> -> ->. by repeat split.
Qed.

Lemma healthy_perform st (c : Page.call) r st' :
  healthy st -> Page.perform c st = Some (r, st') -> healthy st'.
Proof.
  intros Hh Hrun.
  destruct c;
    try (refine (healthy_evolves _ _ Hh (steady_perform _ _ _ _ _ Hrun));
         discriminate).
  cbn [Page.perform] in Hrun. unfold Page.void, bind in Hrun.
  destruct (Browser.new_NSmedia _ _ _ _ _ st) as [[[x|e] s1]|] eqn:Hnew;
    [| |discriminate]; injection Hrun as <- <-;
    by apply (healthy_constructor _ _ _ _ _ _ _ _ Hh Hnew).
Qed.

(** X16. A page of the browser module stays in good order, whatever is
    done to it: after any sequence of constructions, method calls, events
    of elements and calls of [onStatus], each registered object is stored
    under its own id, caches a Number as its position, and has a node, if
    any, whose five observers report to that very object. *)
Theorem pages_stay_healthy (cs : list Page.call) st st' :
  healthy st -> Page.session cs st = Some st' -> healthy st'.
Proof.
  revert st. induction cs as [|c cs IH]; intros st Hh; cbn [Page.session].
  - by intros [= <-].
  - destruct (Page.perform c st) as [[r s1]|] eqn:Hrun; [|discriminate].
    apply IH. by apply (healthy_perform _ _ _ _ Hh Hrun).
Qed.

End MoreBrowser.

(* ===================================================================== *)
(** ** More of the bridge-backed module                                   *)
(* ===================================================================== *)

Section MoreBridge.

Import Keeps.

Context {audio : Type}.
Implicit Types (st : State audio) (media m : NSmedia audio) (i : string).

Lemma steady_exec b success fail service action args :
  steady b (Native.exec (audio := audio) success fail service action args).
Proof. apply steady_ret. Qed.

Lemma steady_method b {R} i (k : NSmedia audio -> M audio R) :
  (forall media, steady b (k media)) -> steady b (bind (self i) k).
Proof. intros Hk. apply steady_bind; [apply steady_self|exact Hk]. Qed.

Lemma steady_succeed (r : Native.reply) (p : value) :
  steady (audio := audio) true (Native.succeed r p).
Proof.
  destruct r; cbn [Native.succeed].
  - apply steady_ret.
  - apply steady_update. intros m. apply unfolds_set_number.
  - apply steady_update. intros m. apply unfolds_set_position.
  - apply steady_bind; [|intros _; apply steady_call].
    apply steady_update. intros m. apply unfolds_set_position.
Qed.

Lemma steady_answer (c : Native.command) ok (arg : value) :
  steady (audio := audio) true (Native.answer c ok arg).
Proof.
  unfold Native.answer.
  destruct ok; [apply steady_succeed|apply steady_call_if_set].
Qed.

Lemma steady_onMessageFromNative (msg : Native.Message) :
  steady (audio := audio) true (Native.onMessageFromNative msg).
Proof.
  unfold Native.onMessageFromNative.
  destruct (String.eqb _ _); [|apply steady_throw].
  destruct (Native.msg_status msg);
    [apply steady_bridge_onStatus|apply steady_throw].
Qed.

Lemma steady_native_void b {R} (c : M audio R) :
  steady b c -> steady b (Native.void c).
Proof.
  intros Hc. unfold Native.void. apply steady_bind; [exact Hc|].
  intros r. apply steady_ret.
Qed.

Lemma steady_native_perform (c : Native.call) :
  (forall uuid src s e t, c <> Native.New uuid src s e t) ->
  steady (audio := audio) true (Native.perform c).
Proof.
  intros Hnew.
  destruct c as [u sr s e t| | | | | | | | | | | | |];
    cbn [Native.perform];
    try (apply steady_native_void, steady_method; intros media;
         first [apply steady_exec|apply steady_ret]).
  - by destruct (Hnew u sr s e t).
  - apply steady_answer.
  - apply steady_onMessageFromNative.
  - apply steady_bridge_onStatus.
Qed.

Lemma plain_evolves st st' : plain st -> evolves true st st' -> plain st'.
Proof.
  intros Hp He i m' Hi'. specialize (He i). rewrite Hi' in He.
  destruct (mediaObjects st !! i) as [m|] eqn:Hi; [|contradiction].
  destruct (Hp i m Hi) as (Hid & Hn).
  destruct He as (Hc & _ & Hn').
  unfold core in Hc. injection Hc as Hid' _ _ _ _.
  split; [congruence|auto].
Qed.

Lemma bridge_constructor_run st uuid (src : value) s e t :
  accepts true src = true ->
  Bridge.new_NSmedia uuid src s e t st
  = Some (Normal uuid,
          logged [Exec None e "NSmedia" "create" [VStr uuid; src]]
            (stored uuid
               {| id := uuid; src := src; successCallback := s;
                  errorCallback := e; statusCallback := t;
                  _duration := VNum (of_Z (-1));
                  _position := VNum (of_Z (-1)); node := None |} st)).
Proof.
  intros Hacc. unfold Bridge.new_NSmedia, checkArgs. by rewrite Hacc.
Qed.

Lemma plain_constructor st uuid (src : value) s e t c st' :
  plain st -> Bridge.new_NSmedia uuid src s e t st = Some (c, st') ->
  plain st'.
Proof.
  intros Hp. destruct (accepts true src) eqn:Hacc.
  - rewrite (bridge_constructor_run _ _ _ _ _ _ Hacc). intros [= <- <-].
    intros i m. cbn. destruct (decide (uuid = i)) as [->|Hne].
    + rewrite lookup_insert_eq. by intros [= <-].
    + rewrite lookup_insert_ne by exact Hne. apply Hp.
  - unfold Bridge.new_NSmedia. unfold bind at 1.
    destruct (checkArgs true src st) as [[c0 s0]|] eqn:Hcheck;
      [|discriminate].
    destruct (checkArgs_refused _ _ _ _ _ Hacc Hcheck) as ((err & ->) & Hsame).
    intros [= <- <-]. intros i m. rewrite Hsame. apply Hp.
Qed.

Lemma plain_perform st (c : Native.call) r st' :
  plain st -> Native.perform c st = Some (r, st') -> plain st'.
Proof.
  intros Hp Hrun.
  destruct c;
    try (refine (plain_evolves _ _ Hp (steady_native_perform _ _ _ _ _ Hrun));
         discriminate).
  cbn [Native.perform] in Hrun. unfold Native.void, bind in Hrun.
  destruct (Bridge.new_NSmedia _ _ _ _ _ st) as [[[x|e] s1]|] eqn:Hnew;
    [| |discriminate]; injection Hrun as <- <-;
    by apply (plain_constructor _ _ _ _ _ _ _ _ Hp Hnew).
Qed.

(** X17. Two objects made by the constructor of the bridge module, with
    sources it accepts: each construction registers the object and sends
    one [create] command, with the error callback as its fail function, and
    calls nothing.  [NSmedia.get] then finds the second object under its
    id, and the first under its own if the ids differ; if they are the
    same, the second object has taken its place.  Every other id resolves
    as before. *)
Theorem constructed_objects_resolve_by_id
    st u1 (src1 : value) s1 e1 t1 u2 (src2 : value) s2 e2 t2 :
  accepts true src1 = true -> accepts true src2 = true ->
  let fresh u src s e t : NSmedia audio :=
    {| id := u; src := src; successCallback := s; errorCallback := e;
       statusCallback := t; _duration := VNum (of_Z (-1));
       _position := VNum (of_Z (-1)); node := None |} in
  let first := fresh u1 src1 s1 e1 t1 in
  let second := fresh u2 src2 s2 e2 t2 in
  let st2 :=
    logged [Exec None e1 "NSmedia" "create" [VStr u1; src1];
            Exec None e2 "NSmedia" "create" [VStr u2; src2]]
      (stored u2 second (stored u1 first st)) in
  bind (Bridge.new_NSmedia u1 src1 s1 e1 t1)
       (fun _ => Bridge.new_NSmedia u2 src2 s2 e2 t2) st
    = Some (Normal u2, st2)
  /\ Native.get u2 st2 = Some (Normal (Some (Registered second)), st2)
  /\ (u1 <> u2 ->
      Native.get u1 st2 = Some (Normal (Some (Registered first)), st2))
  /\ (u1 = u2 ->
      Native.get u1 st2 = Some (Normal (Some (Registered second)), st2))
  /\ (forall j, j <> u1 -> j <> u2 ->
      Native.get j st2 = Some (Normal (found j st), st2)).
Proof.
  intros H1 H2 fresh first second st2.
  unfold bind, Native.get, resolve, found.
  rewrite (bridge_constructor_run _ _ _ _ _ _ H1). cbv beta iota.
  rewrite (bridge_constructor_run _ _ _ _ _ _ H2).
  rewrite stored_logged, logged_app.
  assert (L2 : mediaObjects st2 !! u2 = Some second) by apply stored_lookup.
  split; [reflexivity|].
  split; [by rewrite L2|].
  split; [|split].
  - intros Hne. replace (mediaObjects st2 !! u1) with (Some first);
      [reflexivity|].
    unfold st2. rewrite logged_lookup, stored_lookup_ne by congruence.
    symmetry. apply stored_lookup.
  - intros ->. by rewrite L2.
  - intros j Hj1 Hj2.
    replace (mediaObjects st2 !! j) with (mediaObjects st !! j);
      [reflexivity|].
    unfold st2. by rewrite logged_lookup, !stored_lookup_ne by congruence.
Qed.

(** X18. What the native side answers is cached as it comes.  For a
    registered object: the answer to the command of [stop] sets the cached
    position to 0, whatever is answered; the answer [p] to the command of
    [seekTo] becomes the cached position without conversion to a number;
    the answer [p] to the command of [getCurrentPosition] becomes the
    cached position and is then passed to [success], and if [success] is
    not a function the answer ends in a [TypeError], the position being
    cached all the same. *)
Theorem answers_are_cached_as_they_come st i media :
  mediaObjects st !! i = Some media ->
  (forall p,
      bind (Native.stop i) (fun c => Native.answer c true p) st
      = Some (Normal tt, stored i (set_position (VNum (of_Z 0)) media) st))
  /\ (forall milliseconds p,
      bind (Native.seekTo i milliseconds)
           (fun c => Native.answer c true p) st
      = Some (Normal tt, stored i (set_position p media) st))
  /\ (forall f fail p,
      bind (Native.getCurrentPosition i (Some f) fail)
           (fun c => Native.answer c true p) st
      = Some (Normal tt,
              logged [Call f [p]] (stored i (set_position p media) st)))
  /\ (forall fail p,
      bind (Native.getCurrentPosition i None fail)
           (fun c => Native.answer c true p) st
      = Some (Throw (TypeError "not a function"),
              stored i (set_position p media) st)).
Proof.
  intros Hi.
  unfold Native.stop, Native.seekTo, Native.getCurrentPosition,
    Native.exec, Native.answer, bind, ret.
  rewrite (self_run _ _ _ Hi). cbn [Native.on_success Native.succeed].
  unfold bind. repeat split; intros;
    rewrite ?(update_run _ _ _ _ Hi); reflexivity.
Qed.

(** X19. What the native side refuses goes to the fail function of the
    command.  For a registered object, an error [err] answered to the
    command of [stop], [seekTo], [pause], [startRecord], [stopRecord] or
    [release] is passed to the error callback of the object, if one is
    set; answered to the command of [getCurrentPosition], to the [fail]
    function of that call; answered to the command of [play] or of
    [setVolume], it is dropped: nothing is called.  No object changes. *)
Theorem refusals_reach_the_fail_function st i media (err : value) :
  mediaObjects st !! i = Some media ->
  let refused (method : M audio Native.command) :=
    bind method (fun c => Native.answer c false err) st in
  let told := Some (Normal tt,
                    logged (invocation (errorCallback media) [err]) st) in
  refused (Native.stop i) = told
  /\ (forall milliseconds, refused (Native.seekTo i milliseconds) = told)
  /\ refused (Native.pause i) = told
  /\ refused (Native.startRecord i) = told
  /\ refused (Native.stopRecord i) = told
  /\ refused (Native.release i) = told
  /\ (forall success fail,
      refused (Native.getCurrentPosition i success fail)
      = Some (Normal tt, logged (invocation fail [err]) st))
  /\ (forall options, refused (Native.play i options) = Some (Normal tt, st))
  /\ (forall volume,
      refused (Native.setVolume i volume) = Some (Normal tt, st)).
Proof.
  intros Hi refused told. unfold refused, told.
  unfold Native.stop, Native.seekTo, Native.pause, Native.startRecord,
    Native.stopRecord, Native.release, Native.getCurrentPosition,
    Native.play, Native.setVolume, Native.exec, Native.answer, bind, ret.
  rewrite (self_run _ _ _ Hi). cbn [Native.on_fail].
  rewrite !call_if_set_run. cbn [invocation].
  rewrite logged_nil. repeat split.
  intros success fail. by rewrite call_if_set_run.
Qed.


(** X21. A page of the bridge module stays in good order, whatever is
    done to it: after any sequence of constructions, method calls, answers
    and pushes of the native side and calls of [onStatus], each registered
    object is stored under its own id and has no node. *)
Theorem bridge_pages_stay_plain (cs : list Native.call) st st' :
  plain st -> Native.session cs st = Some st' -> plain st'.
Proof.
  revert st. induction cs as [|c cs IH]; intros st Hp; cbn [Native.session].
  - by intros [= <-].
  - destruct (Native.perform c st) as [[r s1]|] eqn:Hrun; [|discriminate].
    apply IH. by apply (plain_perform _ _ _ _ Hp Hrun).
Qed.

End MoreBridge.

(* ===================================================================== *)
(** ** More of the code at work on the sample pages                       *)
(* ===================================================================== *)

Section MoreSamples.

Import Sample Demo Keeps.

(** On the sample page: the error callback of [song] gets the value. *)
Lemma error_message_reaches_the_error_callback_witness :
  let st : State unit := page None in
  Browser.onStatus "song" (VNum MEDIA_ERROR) boom st
    = Some (Normal tt, logged [Call on_error [boom]] st)
  /\ Bridge.onStatus "song" (VNum MEDIA_ERROR) boom st
    = Some (Normal tt, logged [Call on_error [boom]] st)
  /\ mediaObjects (logged [Call on_error [boom]] st) = mediaObjects st.
Proof.
  apply (error_message_reaches_the_error_callback
           (page None) "song" (song None) boom).
  vm_compute. reflexivity.
Defined.



(** On an empty page, over the element that never throws. *)
Lemma constructor_registers_and_announces_witness :
  Browser.new_NSmedia (prim := sound) (codes := codes)
    "song" (VStr "song.mp3") (Some on_success) (Some on_error)
    (Some on_status) empty
  = Some (Normal "song",
          logged [Call on_status [VNum MEDIA_STARTING]]
            (page (Some (song_node loaded))))
  /\ observers_of "song" (song_node loaded).
Proof.
  destruct (constructor_registers_and_announces
              (prim := sound) (codes := codes) empty
              "song" (VStr "song.mp3") (Some on_success) (Some on_error)
              (Some on_status) (Normal (song_node loaded))
              eq_refl eq_refl) as (Hnew & Hobs).
  split; [|by apply Hobs].
  etransitivity; [exact Hnew|]. vm_compute. reflexivity.
Defined.

(** On the sample page: a duration of 0 is cached as -1, one of 3 as 3. *)
Lemma durationchange_caches_the_duration_or_minus_one_witness :
  let st : State unit := page None in
  let event d :=
    {| Browser.target_duration := d; Browser.target_error := VNull |} in
  Browser.fire (codes := codes) (OnDurationChange "song")
    (event (VNum (of_Z 3))) st
    = Some (Normal tt,
            stored "song" (set_duration (VNum (of_Z 3)) (song None)) st)
  /\ Browser.fire (codes := codes) (OnDurationChange "song")
       (event (VNum (of_Z 0))) st
    = Some (Normal tt,
            stored "song" (set_duration (VNum (of_Z (-1))) (song None)) st).
Proof.
  intros st event. split.
  - destruct (durationchange_caches_the_duration_or_minus_one
                (codes := codes)
                st "song" (song None) (event (VNum (of_Z 3))) eq_refl)
      as (H & _).
    exact (H eq_refl).
  - destruct (durationchange_caches_the_duration_or_minus_one
                (codes := codes)
                st "song" (song None) (event (VNum (of_Z 0))) eq_refl)
      as (_ & H & _).
    exact (H eq_refl).
Defined.

(** On the sample page, over the element that throws at every use. *)
Lemma stop_always_reports_stopped_witness :
  let st : State unit := page (Some (song_node tt)) in
  exists st2,
    Browser.stop (prim := faulty) "song" st
    = Some (Normal tt,
            logged [Call on_status [VNum MEDIA_STOPPED]; Call on_success []]
                   st2).
Proof.
  exact (stop_always_reports_stopped (prim := faulty)
           (page (Some (song_node tt))) "song" (song (Some (song_node tt)))
           eq_refl eq_refl).
Defined.

(** On the sample page, over the element that never throws. *)
Lemma stop_pauses_rewinds_and_reports_witness :
  let st : State player := page (Some (song_node loaded)) in
  Browser.pause (prim := sound) "song" st
    = Some (Normal tt, logged [Call on_status [VNum MEDIA_PAUSED]] st)
  /\ Browser.stop (prim := sound) "song" st
    = Some (Normal tt,
            logged [Call on_status [VNum MEDIA_PAUSED];
                    Call on_status [VNum MEDIA_STOPPED]; Call on_success []]
                   st).
Proof.
  intros st.
  destruct (stop_pauses_rewinds_and_reports (prim := sound)
              st "song" (song (Some (song_node loaded))) (song_node loaded)
              loaded loaded eq_refl eq_refl eq_refl eq_refl eq_refl)
    as (Hp & Hs).
  split; (etransitivity; [eassumption|]); vm_compute; reflexivity.
Defined.

(** On the sample page, over the element that never throws: the time is
    0. *)
Lemma getCurrentPosition_caches_and_answers_witness :
  let st : State player := page (Some (song_node loaded)) in
  let cached :=
    stored "song" (set_position (VNum (of_Z 0))
                     (song (Some (song_node loaded)))) st in
  Browser.getCurrentPosition (prim := sound) "song"
    (Some on_position) (Some on_failure) st
  = Some (Normal tt, logged [Call on_position [VNum (of_Z 0)]] cached)
  /\ Browser.getCurrentPosition (prim := sound) "song" None None st
  = Some (Throw (TypeError "not a function"), cached).
Proof.
  intros st cached.
  destruct (getCurrentPosition_caches_and_answers (prim := sound)
              st "song" (song (Some (song_node loaded))) (song_node loaded)
              (of_Z 0) loaded eq_refl eq_refl eq_refl eq_refl)
    as (Hok & _ & Hnone).
  split.
  - etransitivity; [exact (Hok on_position (Some on_failure))|].
    vm_compute. reflexivity.
  - etransitivity; [exact Hnone|]. vm_compute. reflexivity.
Defined.

(** On the sample page, whose object has no node. *)
Lemma methods_without_a_node_witness :
  let st : State player := page None in
  let error := TypeError "this.node is undefined" in
  Browser.pause (prim := sound) "song" st
    = Some (Normal tt, logged [Call on_error [error]] st)
  /\ Browser.setVolume (prim := sound) "song" (VNum (of_Z 1)) st
    = Some (Throw error, st).
Proof.
  intros st error.
  destruct (methods_without_a_node (prim := sound) st "song" (song None)
              eq_refl eq_refl eq_refl) as (Hp & _ & _ & Hv).
  split; [exact Hp|exact (Hv (VNum (of_Z 1)))].
Defined.

(** On the sample page, over the element that cannot be made. *)
Lemma play_without_an_element_throws_witness :
  let st : State unit := page None in
  Browser.play (prim := missing) (codes := codes) "song" st
  = Some (Throw (TypeError "this.node is undefined"),
          logged [Call on_error [VObj [("code", VNum (of_Z 1))]]] st).
Proof.
  exact (play_without_an_element_throws (prim := missing) (codes := codes)
           (page None) "song" (song None)
           (VObj [("name", VStr "ReferenceError")])
           eq_refl eq_refl eq_refl eq_refl).
Defined.

(** On the sample page. *)
Lemma release_is_idempotent_witness :
  let st : State unit := page (Some (song_node tt)) in
  bind (Browser.release "song") (fun _ => Browser.release "song") st
    = Some (Normal tt, page None)
  /\ bind (Browser.release "song") (fun _ => Browser.getDuration "song") st
    = Some (Normal (VNum (of_Z (-1))), page None).
Proof.
  intros st.
  destruct (release_is_idempotent st "song" (song (Some (song_node tt)))
              eq_refl) as (H1 & H2 & _).
  split; (etransitivity; [eassumption|]); vm_compute; reflexivity.
Defined.

(** On the sample page. *)
Lemma recording_is_not_supported_witness :
  let st : State unit := page None in
  let told := logged [Call on_error [VStr "Not supported"]] st in
  Browser.startRecord "song" st = Some (Normal tt, told)
  /\ Browser.stopRecord "song" st = Some (Normal tt, told)
  /\ mediaObjects told = mediaObjects st.
Proof.
  exact (recording_is_not_supported (page None) "song" (song None)
           eq_refl eq_refl).
Defined.


(** On the pair of objects, over the element that throws at every use: a
    [stop] of [song]. *)
Lemma only_the_constructor_sets_the_core_witness :
  let st : State unit := pair (Some (song_node tt)) in
  exists r st',
    Page.perform (prim := faulty) (codes := codes) (Page.Stop "song") st
      = Some (r, st')
    /\ match mediaObjects st !! "song", mediaObjects st' !! "song" with
       | Some m, Some m' =>
           id m' = id m /\ src m' = src m
           /\ successCallback m' = successCallback m
           /\ errorCallback m' = errorCallback m
           /\ statusCallback m' = statusCallback m
       | None, None => True
       | _, _ => False
       end.
Proof.
  intros st.
  destruct (Page.perform (prim := faulty) (codes := codes)
              (Page.Stop "song") st) as [[r st']|] eqn:Hrun.
  - exists r, st'. split; [reflexivity|].
    refine (only_the_constructor_sets_the_core (prim := faulty)
              (codes := codes) st (Page.Stop "song") r st' _ Hrun "song").
    discriminate.
  - vm_compute in Hrun. discriminate Hrun.
Defined.

Lemma healthy_empty {audio} : healthy (empty (audio := audio)).
Proof. intros i m Hi. cbn in Hi. by rewrite lookup_empty in Hi. Qed.

(** From an empty page, over the element that never throws: an object is
    made, played, released, played again and stopped, while its element
    announces a duration and its end. *)
Lemma pages_stay_healthy_witness :
  let cs :=
    [Page.New "song" (VStr "song.mp3") (Some on_success) None
       (Some on_status);
     Page.Play "song";
     Page.Fire (OnDurationChange "song")
       {| Browser.target_duration := VNum (of_Z 180);
          Browser.target_error := VNull |};
     Page.Release "song";
     Page.SetVolume "song" (VNum (of_Z 1));
     Page.Play "song";
     Page.GetCurrentPosition "song" (Some on_position) None;
     Page.Fire (OnEnded "song")
       {| Browser.target_duration := VNum (of_Z 180);
          Browser.target_error := VNull |};
     Page.Stop "song"] in
  exists st',
    Page.session (prim := sound) (codes := codes) cs empty = Some st'
    /\ healthy st'.
Proof.
  intros cs.
  destruct (Page.session (prim := sound) (codes := codes) cs empty)
    as [st'|] eqn:Hrun.
  - exists st'. split; [reflexivity|].
    exact (pages_stay_healthy (prim := sound) (codes := codes)
             cs empty st' healthy_empty Hrun).
  - vm_compute in Hrun. discriminate Hrun.
Defined.

(** On an empty page: two objects, then the same id twice. *)
Lemma constructed_objects_resolve_by_id_witness :
  let made :=
    bind (Bridge.new_NSmedia "song" (VStr "song.mp3") None (Some on_error)
            None)
         (fun _ => Bridge.new_NSmedia "tune" (VStr "tune.ogg") None None None)
         (empty (audio := unit)) in
  exists st2,
    made = Some (Normal "tune", st2)
    /\ log st2
       = [Exec None (Some on_error) "NSmedia" "create"
            [VStr "song"; VStr "song.mp3"];
          Exec None None "NSmedia" "create" [VStr "tune"; VStr "tune.ogg"]]
    /\ (exists first,
          Native.get "song" st2 = Some (Normal (Some (Registered first)), st2)
          /\ src first = VStr "song.mp3")
    /\ Native.get "lied" st2 = Some (Normal None, st2).
Proof.
  intros made.
  destruct (constructed_objects_resolve_by_id (empty (audio := unit))
              "song" (VStr "song.mp3") None (Some on_error) None
              "tune" (VStr "tune.ogg") None None None eq_refl eq_refl)
    as (Hmade & _ & Hfirst & _ & Hrest).
  eexists. split; [exact Hmade|]. split; [reflexivity|]. split.
  - eexists. split; [apply Hfirst; discriminate|reflexivity].
  - rewrite Hrest by discriminate. reflexivity.
Defined.

(** On the sample page: the native side answers the string ["12.5"]. *)
Lemma answers_are_cached_as_they_come_witness :
  let st : State unit := page None in
  bind (Native.seekTo "song" (VNum (of_Z 12500)))
       (fun c => Native.answer c true (VStr "12.5")) st
    = Some (Normal tt,
            stored "song" (set_position (VStr "12.5") (song None)) st)
  /\ bind (Native.stop "song") (fun c => Native.answer c true VUndefined) st
    = Some (Normal tt,
            stored "song" (set_position (VNum (of_Z 0)) (song None)) st).
Proof.
  intros st.
  destruct (answers_are_cached_as_they_come st "song" (song None) eq_refl)
    as (Hstop & Hseek & _).
  split; [exact (Hseek (VNum (of_Z 12500)) (VStr "12.5"))|].
  exact (Hstop VUndefined).
Defined.

(** On the sample page: the native side refuses a pause and a play. *)
Lemma refusals_reach_the_fail_function_witness :
  let st : State unit := page None in
  bind (Native.pause "song") (fun c => Native.answer c false boom) st
    = Some (Normal tt, logged [Call on_error [boom]] st)
  /\ bind (Native.play "song" VUndefined)
          (fun c => Native.answer c false boom) st
    = Some (Normal tt, st).
Proof.
  intros st.
  destruct (refusals_reach_the_fail_function st "song" (song None) boom
              eq_refl) as (_ & _ & Hpause & _ & _ & _ & _ & Hplay & _).
  split; [exact Hpause|exact (Hplay VUndefined)].
Defined.


Lemma plain_empty {audio} : plain (empty (audio := audio)).
Proof. intros i m Hi. cbn in Hi. by rewrite lookup_empty in Hi. Qed.

(** From an empty page: an object is made, asked for its position and
    stopped; the native side answers both, and pushes a status. *)
Lemma bridge_pages_stay_plain_witness :
  let ask :=
    {| Native.on_success := Native.StorePositionThen "song" (Some on_position);
       Native.on_fail := None; Native.service := "NSmedia";
       Native.action := "getCurrentPositionAudio";
       Native.args := [VStr "song"] |} in
  let halt :=
    {| Native.on_success := Native.ResetPosition "song";
       Native.on_fail := None; Native.service := "NSmedia";
       Native.action := "stopPlayingAudio"; Native.args := [VStr "song"] |} in
  let cs :=
    [Native.New "song" (VStr "song.mp3") None None (Some on_status);
     Native.Play "song" VUndefined;
     Native.GetCurrentPosition "song" (Some on_position) None;
     Native.Answer ask true (VStr "12.5");
     Native.Push {| Native.msg_action := "status";
                    Native.msg_status :=
                      Some {| Native.status_id := "song";
                              Native.status_msgType := VNum MEDIA_STATE;
                              Native.status_value := VNum MEDIA_RUNNING |} |};
     Native.Stop "song";
     Native.Answer halt true VUndefined] in
  exists st',
    Native.session cs (empty (audio := unit)) = Some st' /\ plain st'.
Proof.
  intros ask halt cs.
  destruct (Native.session cs (empty (audio := unit))) as [st'|] eqn:Hrun.
  - exists st'. split; [reflexivity|].
    exact (bridge_pages_stay_plain cs empty st' plain_empty Hrun).
  - vm_compute in Hrun. discriminate Hrun.
Defined.

End MoreSamples.
